(** * compress_history.py: a shallow embedding and its verified properties

    The script cleans a shell history file: every raw line is parsed
    according to the shell variant, filtered by a fixed retention policy and
    deduplicated so that only the most recent occurrence of a command
    survives.

    Modelling conventions.
    - A Python [str] is a Rocq [string]; its characters are the code points
      below 256.  On that range the class [\d] of the [re] module is exactly
      the ten ASCII digits, and [.] (no DOTALL flag) is every character but
      the line feed.
    - [re.search] is a backtracking matcher over the small fragment of the
      regular-expression syntax that the script uses (literals, a greedy
      one-or-more over a character class, concatenation, numbered groups).
    - The [set] of already seen parsed entries is a [gset (option string)]:
      Python's [None] is [None], a parsed command [c] is [Some c].
    - [sys.exit] after a [print] is an explicit [Exited] outcome carrying the
      printed text and the exit status.
    - The file system is a [gmap] from paths to the text of regular files, as
      a POSIX system presents it: reading in text mode turns every carriage
      return or carriage return and line feed into a line feed, writing
      leaves the text as it is.  What the process sees of its surroundings
      (SHELL, the home directory, the files, the clock) is a [world]. *)

From stdpp Require Import gmap strings list pretty.
From Stdlib Require Import Ascii ZArith Lia.

#[local] Open Scope char_scope.
#[local] Open Scope stdpp_scope.
#[local] Arguments String.append !_ _ / : simpl nomatch.

Module CompressHistory.

(** ** Strings *)

(** [s[:n]] *)
Fixpoint str_take (n : nat) (s : string) : string :=
  match n, s with
  | S n', String c s' => String c (str_take n' s')
  | _, _ => ""
  end.

(** The text between two positions of one string, both given as the suffix
    that starts there: [s] is the suffix at the first position, [s'] the
    suffix at the second. *)
Definition consumed (s s' : string) : string :=
  str_take (String.length s - String.length s') s.

(** [s.startswith(p)] *)
Definition startswith (s p : string) : bool := String.prefix p s.

(** [s.split(sep)] for a separator of one character: the pieces between the
    separators, of which there is always at least one. *)
Fixpoint split (sep : ascii) (s : string) : list string :=
  match s with
  | "" => [""]
  | String c s' =>
      if Ascii.eqb c sep then "" :: split sep s'
      else match split sep s' with
           | piece :: pieces => String c piece :: pieces
           | [] => [String c ""]
           end
  end.

(** [l[-1]] on a list known to be non-empty; [d] stands for the IndexError
    case, which [split] never reaches. *)
Definition last_item (l : list string) (d : string) : string := List.last l d.

(** ** The fragment of [re] used by the script *)

Inductive regex : Type :=
| Lit (c : ascii)
| OneOrMore (cls : ascii → bool)
| Seq (r1 r2 : regex)
| Group (n : nat) (r : regex).

(** [\d] *)
Definition re_digit (c : ascii) : bool :=
  (48 <=? nat_of_ascii c)%nat && (nat_of_ascii c <=? 57)%nat.

(** [.] *)
Definition re_dot (c : ascii) : bool := negb (Ascii.eqb c "010").

(** A match object: the text captured by each numbered group. *)
Abbreviation match_object := (gmap nat string).

(** Greedy [cls+] with backtracking: consume as many characters of the class
    as there are, and hand back one at a time while the rest of the pattern
    (the continuation [k]) fails. *)
Fixpoint one_or_more {R} (cls : ascii → bool) (s : string)
    (k : string → option R) : option R :=
  match s with
  | String c s' =>
      if cls c then
        match one_or_more cls s' k with
        | Some r => Some r
        | None => k s'
        end
      else None
  | "" => None
  end.

(** [rmatch r s groups k]: match [r] at the start of [s], then run the rest
    of the pattern [k] on what is left. *)
Fixpoint rmatch (r : regex) (s : string) (groups : match_object)
    (k : string → match_object → option match_object) : option match_object :=
  match r with
  | Lit c =>
      match s with
      | String a s' => if Ascii.eqb a c then k s' groups else None
      | "" => None
      end
  | OneOrMore cls => one_or_more cls s (λ s', k s' groups)
  | Seq r1 r2 => rmatch r1 s groups (λ s1 groups1, rmatch r2 s1 groups1 k)
  | Group n r' =>
      rmatch r' s groups (λ s' groups', k s' (<[n := consumed s s']> groups'))
  end.

(** [re.match]: the pattern must match at the start of [s]. *)
Definition re_match (r : regex) (s : string) : option match_object :=
  rmatch r s ∅ (λ _ groups, Some groups).

(** [re.search]: the match at the leftmost position that has one; the
    position at the very end of the string is tried too. *)
Fixpoint re_search (r : regex) (s : string) : option match_object :=
  match re_match r s with
  | Some m => Some m
  | None =>
      match s with
      | String _ s' => re_search r s'
      | "" => None
      end
  end.

(** [m.group(n)] *)
Definition group (m : match_object) (n : nat) : option string := m !! n.

(** ** The script *)

(** [class ShellType(StrEnum)]: with [auto()] the value of a member is its
    lower-cased name. *)
Inductive ShellType : Type := ZSH | BASH.

Definition ShellType_value (shellt : ShellType) : string :=
  match shellt with
  | ZSH => "zsh"
  | BASH => "bash"
  end.

(** [ShellType(value)]: the member with that value; [None] stands for the
    ValueError raised when there is none. *)
Definition ShellType_of_value (value : string) : option ShellType :=
  if String.eqb value (ShellType_value ZSH) then Some ZSH
  else if String.eqb value (ShellType_value BASH) then Some BASH
  else None.

(** What a call that may leave through [sys.exit] does: it returns a value,
    or it ends the process with a status after printing a message. *)
Inductive outcome (A : Type) : Type :=
| Returned (a : A)
| Exited (printed : string) (status : Z).
Arguments Returned {A} a.
Arguments Exited {A} printed status.

(** [get_shell_type()].  The argument is [os.environ.get("SHELL")]. *)
Definition get_shell_type (shell : option string) : outcome ShellType :=
  match shell with
  | None => Exited "Can't determine type of shell, exiting." 1
  | Some "" => Exited "Can't determine type of shell, exiting." 1
  | Some shell =>
      match ShellType_of_value (last_item (split "/" shell) "") with
      | Some shellt => Returned shellt
      | None =>
          Exited ("Unsupported shell type " +:+ shell +:+ ", exiting.") 1
      end
  end.

(** [re.compile(r"(: \d+:\d+;)(.+)")] *)
Definition zsh_pattern : regex :=
  Seq (Group 1 (Seq (Lit ":") (Seq (Lit " ") (Seq (OneOrMore re_digit)
         (Seq (Lit ":") (Seq (OneOrMore re_digit) (Lit ";")))))))
      (Group 2 (OneOrMore re_dot)).

(** [parse_history_entry(entry, shellt)] *)
Definition parse_history_entry (entry : string) (shellt : ShellType)
    : option string :=
  match shellt with
  | ZSH =>
      match re_search zsh_pattern entry with
      | None => None
      | Some m => group m 2
      end
  | BASH => Some entry
  end.

Definition _starts_with : list string := ["source"; "git commit"].

Definition _editors : list string :=
  ["nano"; "vim"; "nvim"; "subl"; "code"; "emacs"].

Definition _exact_match : list string :=
  ["python"; "clear"; "ls"; "pwd"; "cd ~"; "cd /"; "cd"; "cd .."; "cd ."].

(** [filter(parsed_entry)] *)
Definition filter (parsed_entry : string) : bool :=
  if bool_decide (parsed_entry ∈ _exact_match) then false
  else if bool_decide (parsed_entry ∈ _editors) then false
  else if (0 <? sum_list
                  ((λ s, Nat.b2n (startswith parsed_entry s)) <$> _starts_with))%nat
  then false
  else true.

(** [remove_long_commands(parsed_entry, command_length)]; the default of
    [command_length] is 60. *)
Definition remove_long_commands (parsed_entry : string)
    (command_length : nat) : bool :=
  if (command_length <? String.length parsed_entry)%nat then false else true.

(** The local variables of [clean_history_file] that the loop updates. *)
Record clean_state : Type := CleanState {
  results : list string;
  unparsed : nat;
  unique_parsed_entries : gset (option string)
}.

(** One iteration of the loop of [clean_history_file]: a [continue] leaves
    the state as it is, the other paths reach the two statements at the end
    of the body. *)
Definition clean_step (shellt : ShellType) (dedup : bool)
    (σ : clean_state) (entry : string) : clean_state :=
  let parsed_entry := parse_history_entry entry shellt in
  let retain (unparsed' : nat) :=
    CleanState (results σ ++ [entry]) unparsed'
               ({[parsed_entry]} ∪ unique_parsed_entries σ) in
  match parsed_entry with
  | None => retain (S (unparsed σ))
  | Some command =>
      if negb (filter command) then σ
      else if dedup && bool_decide (parsed_entry ∈ unique_parsed_entries σ)
      then σ
      else retain (unparsed σ)
  end.

(** [clean_history_file(raw_history, shellt, dedup)]; the default of
    [dedup] is [True]. *)
Definition clean_history_file (raw_history : list string)
    (shellt : ShellType) (dedup : bool) : list string :=
  let σ := foldl (clean_step shellt dedup) (CleanState [] 0 ∅)
                 (reverse raw_history) in
  reverse (results σ).

(** ** Files, and the script's entry point *)

(** [os.path.exists(file)] *)
Definition path_exists (files : gmap string string) (file : string) : bool :=
  bool_decide (is_Some (files !! file)).

(** [get_shell_history_file(shellt)].  [home] is [os.path.expanduser("~")];
    the [else] branch that raises NotImplementedError is out of reach for the
    two members of [ShellType]. *)
Definition get_shell_history_file (home : string)
    (files : gmap string string) (shellt : ShellType) : outcome string :=
  let filename :=
    match shellt with
    | ZSH => ".zsh_history"
    | BASH => ".bash_history"
    end in
  let file := home +:+ "/" +:+ filename in
  if negb (path_exists files file)
  then Exited "Can't find shell history file, exiting." 1
  else Returned file.

(** What text-mode reading makes of the line ends of a file: [\r\n] and a
    lone [\r] become [\n]. *)
Fixpoint translate_newlines (s : string) : string :=
  match s with
  | "" => ""
  | String c s' =>
      if Ascii.eqb c "013" then
        match s' with
        | String c' _ =>
            if Ascii.eqb c' "010" then translate_newlines s'
            else String "010" (translate_newlines s')
        | "" => String "010" ""
        end
      else String c (translate_newlines s')
  end.

(** The lines of a text, each with its line feed; the last one may lack
    it. *)
Fixpoint text_lines (s : string) : list string :=
  match s with
  | "" => []
  | String c s' =>
      if Ascii.eqb c "010" then String c "" :: text_lines s'
      else match text_lines s' with
           | line :: lines => String c line :: lines
           | [] => [String c ""]
           end
  end.

(** [f.readlines()] on a file opened with [open(file, "r")] *)
Definition readlines (content : string) : list string :=
  text_lines (translate_newlines content).

(** [f.writelines(lines)] on a file opened with [open(file, "w")]: the new
    content of the file. *)
Definition writelines (lines : list string) : string :=
  foldr String.append "" lines.

Record world : Type := World {
  environ_SHELL : option string;
  home_dir : string;
  files : gmap string string;
  clock : Z
}.

Inductive exception : Type :=
| FileNotFoundError (filename : string).

(** [main()].  [clock w] is [int(time.time())].  The result is the world
    the run leaves behind, or the exception it dies of. *)
Definition main (w : world) : outcome (exception + world) :=
  match get_shell_type (environ_SHELL w) with
  | Exited printed status => Exited printed status
  | Returned st =>
      match get_shell_history_file (home_dir w) (files w) st with
      | Exited printed status => Exited printed status
      | Returned history_file =>
          match files w !! history_file with
          | None => Returned (inl (FileNotFoundError history_file))
          | Some content =>
              let history := readlines content in
              let cleaned_history := clean_history_file history st true in
              let backup :=
                history_file +:+ "." +:+ pretty (clock w) +:+ ".bak" in
              let copied := <[backup := content]> (files w) in
              let written :=
                <[history_file := writelines cleaned_history]> copied in
              Returned (inr (World (environ_SHELL w) (home_dir w) written
                                   (clock w)))
          end
      end
  end.

(** ** Vocabulary of the statements *)

Definition LF : ascii := "010".

(** Every character of [s] is in the class [p]. *)
Fixpoint str_all (p : ascii → bool) (s : string) : bool :=
  match s with
  | "" => true
  | String c s' => p c && str_all p s'
  end.

(** The longest prefix of [s] made of characters of the class [p], and what
    follows it. *)
Fixpoint take_while (p : ascii → bool) (s : string) : string :=
  match s with
  | "" => ""
  | String c s' => if p c then String c (take_while p s') else ""
  end.

Fixpoint drop_while (p : ascii → bool) (s : string) : string :=
  match s with
  | "" => ""
  | String c s' => if p c then drop_while p s' else s
  end.

(** A non-empty run of decimal digits. *)
Definition digits (d : string) : Prop := d ≠ "" ∧ str_all re_digit d = true.

(** [s] starts with [: <digits>:<digits>;] and one more character that is
    not a line feed; [tail] is everything after the semicolon. *)
Definition timestamped (s tail : string) : Prop :=
  ∃ d1 d2 x rest,
    digits d1 ∧ digits d2 ∧ x ≠ LF ∧ tail = String x rest ∧
    s = ": " +:+ d1 +:+ ":" +:+ d2 +:+ ";" +:+ tail.

(** The raw entries of [h] whose parsed command is [c]. *)
Definition parses_to (shellt : ShellType) (c : option string)
    (entry : string) : bool :=
  bool_decide (parse_history_entry entry shellt = c).

(** What decides the fate of [entry] when the entries after it in the file
    are [later]. *)
Definition retained (shellt : ShellType) (dedup : bool)
    (entry : string) (later : list string) : bool :=
  match parse_history_entry entry shellt with
  | None => true
  | Some c =>
      filter c &&
      (negb dedup || negb (existsb (parses_to shellt (Some c)) later))
  end.

(** [b] holds no slash. *)
Definition no_slash (b : string) : Prop :=
  str_all (λ c, negb (Ascii.eqb c "/")) b = true.

(** [b] is the final component of the path [s]: it holds no slash and is
    all of [s] or what follows the last slash of [s]. *)
Definition final_component (s b : string) : Prop :=
  no_slash b ∧ (s = b ∨ ∃ dir, s = dir +:+ "/" +:+ b).

(** What [zsh_pattern] captures in group 2 when it is matched at the start
    of [s], written out as plain string processing. *)
Definition zsh_command_at (s : string) : option string :=
  match s with
  | String a0 (String a1 (String a2 s1)) =>
      if Ascii.eqb a0 ":" && Ascii.eqb a1 " " && re_digit a2 then
        match drop_while re_digit s1 with
        | String b0 (String b1 s2) =>
            if Ascii.eqb b0 ":" && re_digit b1 then
              match drop_while re_digit s2 with
              | String c0 (String c1 s3) =>
                  if Ascii.eqb c0 ";" && re_dot c1
                  then Some (String c1 (take_while re_dot s3))
                  else None
              | _ => None
              end
            else None
        | _ => None
        end
      else None
  | _ => None
  end.

(** [zsh_command_at] tried at every position, leftmost first. *)
Fixpoint zsh_search (s : string) : option string :=
  match zsh_command_at s with
  | Some c => Some c
  | None =>
      match s with
      | String _ s' => zsh_search s'
      | "" => None
      end
  end.

(** The state of the loop of [clean_history_file] once it has gone through
    the entries [l], given in the order in which the loop meets them. *)
Definition clean_loop (shellt : ShellType) (dedup : bool)
    (l : list string) : clean_state :=
  foldl (clean_step shellt dedup) (CleanState [] 0 ∅) l.

(** A history in which every entry is retained given the entries after it. *)
Fixpoint settled (shellt : ShellType) (dedup : bool) (h : list string) : Prop :=
  match h with
  | [] => True
  | entry :: later => retained shellt dedup entry later = true ∧
                      settled shellt dedup later
  end.

(** Some semicolon of [s] is not its last character. *)
Fixpoint semicolon_inside (s : string) : bool :=
  match s with
  | "" => false
  | String c s' =>
      (Ascii.eqb c ";" && negb (String.eqb s' "")) || semicolon_inside s'
  end.

(** The last character of [s], if it has one. *)
Fixpoint last_char (s : string) : option ascii :=
  match s with
  | "" => None
  | String c "" => Some c
  | String _ s' => last_char s'
  end.

(** [entry], found in front of the entries [later], is not a duplicate of
    one of them. *)
Definition survives (shellt : ShellType) (dedup : bool)
    (later : list string) (entry : string) : bool :=
  match parse_history_entry entry shellt with
  | None => true
  | Some c => negb dedup || negb (existsb (parses_to shellt (Some c)) later)
  end.

(** [s] holds no semicolon. *)
Definition no_semicolon (s : string) : bool :=
  str_all (λ c, negb (Ascii.eqb c ";")) s.

(** [s] holds no carriage return. *)
Definition no_CR (s : string) : bool :=
  str_all (λ c, negb (Ascii.eqb c "013")) s.

(** A line with its line end: characters other than line feeds and carriage
    returns, then one line feed. *)
Fixpoint full_line (s : string) : bool :=
  match s with
  | "" => false
  | String c s' =>
      if Ascii.eqb c "010" then String.eqb s' ""
      else negb (Ascii.eqb c "013") && full_line s'
  end.

(** A line without line end, as the last line of a text may be: not empty,
    and neither line feeds nor carriage returns in it. *)
Definition open_line (s : string) : bool :=
  negb (String.eqb s "") &&
  str_all (λ c, negb (Ascii.eqb c "010") && negb (Ascii.eqb c "013")) s.

(** A list of lines as [readlines] returns them: every one has its line end,
    but for the last one, which may lack it. *)
Fixpoint lines_ok (l : list string) : bool :=
  match l with
  | [] => true
  | x :: l' =>
      (full_line x || (open_line x && bool_decide (l' = []))) && lines_ok l'
  end.

(** The world at another time. *)
Definition at_time (t : Z) (w : world) : world :=
  World (environ_SHELL w) (home_dir w) (files w) t.

(** A world to run [main] in: a bash user with a history of four lines. *)
Definition sample_world : world :=
  World (Some "/bin/bash") "/home/u"
        {[ "/home/u/.bash_history" :=
             "make" +:+ String "010" ("ls -la" +:+ String "010"
               ("cd" +:+ String "010" ("make" +:+ String "010" ""))) ]}
        1700000000.

(** * Properties *)

(** ** Strings *)

Lemma app_String_assoc (a b c : string) : (a +:+ b) +:+ c = a +:+ b +:+ c.
Proof. induction a as [|x a IH]; simpl; [done | by f_equal]. Qed.

Lemma app_empty_r (a : string) : a +:+ "" = a.
Proof. induction a as [|x a IH]; simpl; [done | by f_equal]. Qed.

Lemma length_app_String (a b : string) :
  String.length (a +:+ b) = String.length a + String.length b.
Proof. induction a as [|x a IH]; simpl; [done | by f_equal]. Qed.

Lemma str_take_app (a b : string) : str_take (String.length a) (a +:+ b) = a.
Proof. induction a as [|x a IH]; simpl; [by destruct b | by f_equal]. Qed.

Lemma consumed_app (a b : string) : consumed (a +:+ b) b = a.
Proof.
  unfold consumed. rewrite length_app_String.
  replace (String.length a + String.length b - String.length b)
    with (String.length a) by lia.
  apply str_take_app.
Qed.

Lemma take_drop_while p (s : string) : take_while p s +:+ drop_while p s = s.
Proof.
  induction s as [|c s IH]; simpl; [done |].
  destruct (p c); simpl; [by rewrite IH | done].
Qed.

Lemma str_all_take_while p (s : string) : str_all p (take_while p s) = true.
Proof.
  induction s as [|c s IH]; simpl; [done |].
  destruct (p c) eqn:Hc; simpl; [by rewrite Hc | done].
Qed.

Lemma drop_while_all p (d t : string) :
  str_all p d = true → drop_while p (d +:+ t) = drop_while p t.
Proof.
  induction d as [|c d IH]; simpl; [done |].
  intros [Hc Hd]%andb_prop. rewrite Hc. auto.
Qed.

Lemma take_while_all p (d t : string) :
  str_all p d = true → take_while p (d +:+ t) = d +:+ take_while p t.
Proof.
  induction d as [|c d IH]; simpl; [done |].
  intros [Hc Hd]%andb_prop. rewrite Hc. by rewrite IH.
Qed.

Lemma drop_while_head p (s : string) :
  match drop_while p s with
  | String c _ => p c = false
  | "" => True
  end.
Proof.
  induction s as [|c s IH]; simpl; [done |].
  destruct (p c) eqn:Hc; [done | by simpl].
Qed.

Lemma prefix_app (p s : string) :
  String.prefix p s = true ↔ ∃ t, s = p +:+ t.
Proof.
  revert s. induction p as [|a p IH]; intros s; simpl.
  - split; [by exists s | by destruct s].
  - destruct s as [|b s]; [split; [done | by intros [t ?]] |].
    simpl. destruct (ascii_dec a b) as [->|Hab].
    + rewrite IH. split; intros [t Ht]; exists t; congruence.
    + split; [done | intros [t Ht]; congruence].
Qed.

(** ** The matcher *)

Section one_or_more.
Context {R : Type} (cls : ascii → bool) (k : string → option R).

(** When the rest of the pattern cannot start with a character of the
    class, giving characters back never helps: the run is consumed whole. *)
Lemma one_or_more_blocked (s : string) :
  (∀ a t, cls a = true → k (String a t) = None) →
  one_or_more cls s k =
    match s with
    | String c s' => if cls c then k (drop_while cls s') else None
    | "" => None
    end.
Proof.
  intros Hk. induction s as [|c s IH]; simpl; [done |].
  destruct (cls c) eqn:Hc; [| done]. rewrite IH.
  destruct s as [|b s]; simpl; [done |].
  destruct (cls b) eqn:Hb; [| done].
  destruct (k (drop_while cls s)); [done | by apply Hk].
Qed.

(** Greedy: when the rest of the pattern accepts what follows the whole
    run, that is the match. *)
Lemma one_or_more_greedy (c : ascii) (s : string) :
  cls c = true → is_Some (k (drop_while cls s)) →
  one_or_more cls (String c s) k = k (drop_while cls s).
Proof.
  revert c. induction s as [|b s IH]; intros c Hc [r Hr]; simpl in *.
  - by rewrite Hc.
  - rewrite Hc. destruct (cls b) eqn:Hb.
    + specialize (IH b Hb (ex_intro _ r Hr)). simpl in IH.
      rewrite Hb in IH. by rewrite IH, Hr.
    + done.
Qed.
End one_or_more.

Lemma digits_then {R} (c : ascii) (k : string → option R) (s : string) :
  re_digit c = false →
  one_or_more re_digit s
    (λ s1, match s1 with
           | String a s' => if Ascii.eqb a c then k s' else None
           | "" => None
           end) =
  match s with
  | String a s' =>
      if re_digit a then
        match drop_while re_digit s' with
        | String b s'' => if Ascii.eqb b c then k s'' else None
        | "" => None
        end
      else None
  | "" => None
  end.
Proof.
  intros Hc. rewrite one_or_more_blocked; [done |].
  intros a t Ha. destruct (Ascii.eqb_spec a c) as [->|]; congruence.
Qed.

Lemma consumed_dots (c : ascii) (s : string) :
  consumed (String c s) (drop_while re_dot s) = String c (take_while re_dot s).
Proof.
  rewrite <- (take_drop_while re_dot s) at 1.
  apply (consumed_app (String c (take_while re_dot s))).
Qed.

Lemma re_match_zsh (s : string) :
  (λ m, group m 2) <$> re_match zsh_pattern s = Some <$> zsh_command_at s.
Proof.
  unfold re_match, zsh_pattern, zsh_command_at. cbn [rmatch].
  destruct s as [|a0 [|a1 s]]; [done | by destruct (Ascii.eqb a0 ":") |].
  destruct (Ascii.eqb a0 ":"); [| by destruct s].
  destruct (Ascii.eqb a1 " "); [| by destruct s].
  rewrite (digits_then ":") by done.
  destruct s as [|a2 s1]; [done |].
  destruct (re_digit a2); [| done]. cbn [andb].
  destruct (drop_while re_digit s1) as [|b0 s2]; [done |].
  destruct (Ascii.eqb b0 ":"); [| by destruct s2].
  rewrite (digits_then ";") by done.
  destruct s2 as [|b1 s2]; [done |].
  destruct (re_digit b1); [| done]. cbn [andb].
  destruct (drop_while re_digit s2) as [|c0 s3]; [done |].
  destruct (Ascii.eqb c0 ";"); [| by destruct s3].
  destruct s3 as [|c1 s3]; [done |].
  destruct (re_dot c1) eqn:Hc1; [| by simpl; rewrite Hc1].
  rewrite one_or_more_greedy by done. simpl.
  unfold group. rewrite lookup_insert_eq. by rewrite consumed_dots.
Qed.

Lemma parse_zsh (entry : string) :
  parse_history_entry entry ZSH = zsh_search entry.
Proof.
  unfold parse_history_entry.
  induction entry as [|a s IH]; cbn [re_search zsh_search].
  - pose proof (re_match_zsh "") as H.
    destruct (re_match zsh_pattern ""), (zsh_command_at ""); by simplify_eq/=.
  - pose proof (re_match_zsh (String a s)) as H.
    destruct (re_match zsh_pattern (String a s)),
      (zsh_command_at (String a s)); by simplify_eq/=.
Qed.

Lemma re_dot_LF (x : ascii) : re_dot x = true ↔ x ≠ LF.
Proof.
  unfold re_dot, LF. destruct (Ascii.eqb_spec x "010"); naive_solver.
Qed.

Lemma digit_colon (a : ascii) : re_digit a = true → a ≠ ":"%char.
Proof. by intros Ha ->. Qed.

Lemma digit_semicolon (a : ascii) : re_digit a = true → a ≠ ";"%char.
Proof. by intros Ha ->. Qed.

Lemma zsh_command_at_complete (d1 d2 rest : string) (x : ascii) :
  digits d1 → digits d2 → x ≠ LF →
  zsh_command_at (": " +:+ d1 +:+ ":" +:+ d2 +:+ ";" +:+ String x rest)
  = Some (String x (take_while re_dot rest)).
Proof.
  intros [Hne1 Hd1] [Hne2 Hd2] Hx%re_dot_LF.
  destruct d1 as [|a1 d1]; [done |]. destruct d2 as [|a2 d2]; [done |].
  simpl in Hd1, Hd2. apply andb_prop in Hd1 as [Ha1 Hd1].
  apply andb_prop in Hd2 as [Ha2 Hd2].
  cbn [zsh_command_at String.append]. simpl.
  rewrite Ha1. rewrite (drop_while_all _ d1) by done. simpl.
  rewrite Ha2. rewrite (drop_while_all _ d2) by done. simpl.
  by rewrite Hx.
Qed.

Lemma zsh_command_at_sound (s c : string) :
  zsh_command_at s = Some c →
  ∃ tail, timestamped s tail ∧ c = take_while re_dot tail.
Proof.
  unfold zsh_command_at. intros H.
  destruct s as [|a0 [|a1 [|a2 s1]]]; try done.
  destruct (Ascii.eqb_spec a0 ":") as [->|]; [| done].
  destruct (Ascii.eqb_spec a1 " ") as [->|]; [| done].
  destruct (re_digit a2) eqn:Ha2; [| done]. cbn [andb] in H.
  destruct (drop_while re_digit s1) as [|b0 [|b1 s2]] eqn:Hs1; try done.
  destruct (Ascii.eqb_spec b0 ":") as [->|]; [| done].
  destruct (re_digit b1) eqn:Hb1; [| done]. cbn [andb] in H.
  destruct (drop_while re_digit s2) as [|c0 [|c1 s3]] eqn:Hs2; try done.
  destruct (Ascii.eqb_spec c0 ";") as [->|]; [| done].
  destruct (re_dot c1) eqn:Hc1; [| done]. cbn [andb] in H.
  injection H as <-.
  exists (String c1 s3). split; [| by simpl; rewrite Hc1].
  exists (String a2 (take_while re_digit s1)),
    (String b1 (take_while re_digit s2)), c1, s3.
  repeat split; try done.
  - simpl. by rewrite Ha2, str_all_take_while.
  - simpl. by rewrite Hb1, str_all_take_while.
  - by apply re_dot_LF.
  - simpl. do 3 f_equal.
    rewrite <- (take_drop_while re_digit s1) at 1. rewrite Hs1.
    do 3 f_equal.
    rewrite <- (take_drop_while re_digit s2) at 1. by rewrite Hs2.
Qed.

Lemma zsh_search_skip (pre t : string) :
  (∀ a b, pre = a +:+ b → b ≠ "" → zsh_command_at (b +:+ t) = None) →
  zsh_search (pre +:+ t) = zsh_search t.
Proof.
  induction pre as [|c pre IH]; intros Hnone; [done |].
  pose proof (Hnone "" (String c pre) eq_refl ltac:(done)) as H0.
  change (String c pre +:+ t) with (String c (pre +:+ t)) in *.
  cbn [zsh_search]. rewrite H0.
  apply IH. intros a b -> Hb. by apply (Hnone (String c a)).
Qed.

Lemma zsh_search_found (pre t : string) :
  is_Some (zsh_command_at t) → is_Some (zsh_search (pre +:+ t)).
Proof.
  intros [c Hc]. induction pre as [|a pre IH].
  - change ("" +:+ t) with t. destruct t; cbn [zsh_search]; by rewrite Hc.
  - cbn [String.append zsh_search].
    by destruct (zsh_command_at (String a (pre +:+ t))).
Qed.

(** ** The clean pass *)

Section clean.
Context (shellt : ShellType) (dedup : bool).

Abbreviation parse e := (parse_history_entry e shellt).
Abbreviation clean h := (clean_history_file h shellt dedup).

Lemma parses_to_spec (c : option string) (e : string) :
  parses_to shellt c e = true ↔ parse e = c.
Proof. unfold parses_to. by rewrite bool_decide_eq_true. Qed.

Lemma existsb_parses_to (c : option string) (l : list string) :
  existsb (parses_to shellt c) l = true ↔ ∃ e, e ∈ l ∧ parse e = c.
Proof.
  rewrite existsb_exists. setoid_rewrite parses_to_spec.
  by setoid_rewrite list_elem_of_In.
Qed.

Lemma clean_loop_snoc (l : list string) (e : string) :
  clean_loop shellt dedup (l ++ [e])
  = clean_step shellt dedup (clean_loop shellt dedup l) e.
Proof. unfold clean_loop. by rewrite foldl_app. Qed.

(** The set of seen values holds a command exactly when the policy keeps
    it and some entry met so far parses to it. *)
Lemma seen_command (l : list string) (c : string) :
  Some c ∈ unique_parsed_entries (clean_loop shellt dedup l) ↔
  filter c = true ∧ ∃ e, e ∈ l ∧ parse e = Some c.
Proof.
  revert c. induction l as [|e l IH] using rev_ind; intros c.
  - split; [set_solver |]. intros [_ (e & He & _)]. by apply elem_of_nil in He.
  - rewrite clean_loop_snoc. unfold clean_step.
    setoid_rewrite elem_of_app. setoid_rewrite list_elem_of_singleton.
    pose proof (IH c) as IHc.
    destruct (parse e) as [c0|] eqn:Hp; cbn [negb].
    + pose proof (IH c0) as IHc0. clear IH.
      destruct (filter c0) eqn:Hf; cbn [negb].
      * destruct (dedup && _) eqn:Hd; cbn [unique_parsed_entries].
        -- apply andb_prop in Hd as [_ Hin%bool_decide_eq_true].
           rewrite IHc. split; [intros (? & e' & ? & ?); by eauto 6 |].
           intros (Hc & e' & [He' | ->] & Hp'); [by eauto |].
           assert (c = c0) as -> by congruence. by apply IHc.
        -- rewrite elem_of_union, elem_of_singleton, IHc. split.
           ++ intros [[= ->] | (? & e' & ? & ?)]; by eauto 6.
           ++ intros (Hc & e' & [He' | ->] & Hp'); [by eauto 6 |].
              left. congruence.
      * rewrite IHc. split; [intros (? & e' & ? & ?); by eauto 6 |].
        intros (Hc & e' & [He' | ->] & Hp'); [by eauto |]. congruence.
    + clear IH. cbn [unique_parsed_entries].
      rewrite elem_of_union, elem_of_singleton, IHc. split.
      * intros [[=] | (? & e' & ? & ?)]. by eauto 6.
      * intros (Hc & e' & [He' | ->] & Hp'); [by eauto 6 | congruence].
Qed.

(** The loop, read from the front of the file: an entry stays or goes
    depending only on itself and on the entries after it. *)
Lemma clean_cons (e : string) (later : list string) :
  clean (e :: later)
  = if retained shellt dedup e later then e :: clean later else clean later.
Proof.
  unfold clean_history_file. rewrite reverse_cons.
  fold (clean_loop shellt dedup (reverse later ++ [e])).
  fold (clean_loop shellt dedup (reverse later)).
  rewrite clean_loop_snoc. unfold clean_step, retained.
  destruct (parse e) as [c|] eqn:Hp; cbn [results]; [| by rewrite reverse_snoc].
  destruct (filter c) eqn:Hf; cbn [negb andb]; [| done].
  assert (bool_decide
            (Some c ∈ unique_parsed_entries
                        (clean_loop shellt dedup (reverse later)))
          = existsb (parses_to shellt (Some c)) later) as ->.
  { apply eq_true_iff_eq.
    rewrite bool_decide_eq_true, seen_command, existsb_parses_to.
    setoid_rewrite elem_of_reverse. tauto. }
  destruct dedup, (existsb _ later); cbn [negb andb orb results];
    by rewrite ?reverse_snoc.
Qed.

Lemma clean_nil : clean [] = [].
Proof. done. Qed.

Lemma clean_sublist (h : list string) : clean h `sublist_of` h.
Proof.
  induction h as [|e h IH]; [by rewrite clean_nil |].
  rewrite clean_cons. destruct (retained _ _ _ _); by constructor.
Qed.

Lemma clean_elem_of (h : list string) (e : string) : e ∈ clean h → e ∈ h.
Proof. intros He. eapply elem_of_sublist; [done | apply clean_sublist]. Qed.

Lemma retained_clean (e : string) (h : list string) :
  retained shellt dedup e h = true → retained shellt dedup e (clean h) = true.
Proof.
  unfold retained. destruct (parse e) as [c|]; [| done].
  destruct (filter c); [| done]. cbn [andb]. intros H.
  destruct (existsb (parses_to shellt (Some c)) (clean h)) eqn:Hex;
    [| by rewrite orb_true_r].
  apply existsb_parses_to in Hex as (e' & He' & Hp).
  assert (existsb (parses_to shellt (Some c)) h = true) as Hh.
  { apply existsb_parses_to. exists e'. split; [by apply clean_elem_of | done]. }
  by rewrite Hh in H.
Qed.

Lemma settled_clean (h : list string) : settled shellt dedup (clean h).
Proof.
  induction h as [|e h IH]; [done |].
  rewrite clean_cons. destruct (retained _ _ e h) eqn:Hr; [| done].
  split; [by apply retained_clean | done].
Qed.

Lemma clean_settled (h : list string) : settled shellt dedup h → clean h = h.
Proof.
  induction h as [|e h IH]; [done |]. intros [Hr Hs].
  rewrite clean_cons, Hr. by rewrite IH.
Qed.

(** What is in front of a part of the file does not change what the pass
    makes of that part. *)
Lemma clean_app (front h : list string) :
  ∃ kept, kept `sublist_of` front ∧ clean (front ++ h) = kept ++ clean h.
Proof.
  induction front as [|e front (kept & Hsub & IH)]; [by exists [] |].
  cbn [app]. rewrite clean_cons, IH.
  destruct (retained _ _ _ _).
  - exists (e :: kept). split; [by constructor | done].
  - exists kept. split; [by constructor | done].
Qed.
(** An entry that is retained given what follows it is found in the output
    right in front of what the pass makes of the entries after it. *)
Lemma clean_retained_at (front : list string) (e : string)
    (later : list string) :
  retained shellt dedup e later = true →
  ∃ kept, kept `sublist_of` front ∧
          clean (front ++ e :: later) = kept ++ e :: clean later.
Proof.
  intros Hr. destruct (clean_app front (e :: later)) as (kept & Hsub & ->).
  exists kept. by rewrite clean_cons, Hr.
Qed.

(** A command the policy keeps does not vanish: some entry of the output
    still parses to it. *)
Lemma clean_keeps_command (h : list string) (e c : string) :
  e ∈ h → parse e = Some c → filter c = true →
  ∃ e', e' ∈ clean h ∧ parse e' = Some c.
Proof.
  intros He Hp Hf. revert e He Hp.
  induction h as [|a h IH]; intros e He Hp; [by apply elem_of_nil in He |].
  rewrite clean_cons.
  assert (∀ e0, e0 ∈ h → parse e0 = Some c →
            ∃ e', e' ∈ (if retained shellt dedup a h
                        then a :: clean h else clean h) ∧ parse e' = Some c)
    as Hlater.
  { intros e0 He0 Hp0. destruct (IH e0 He0 Hp0) as (e' & He' & Hp').
    exists e'. split; [| done].
    destruct (retained _ _ _ _); [by apply list_elem_of_further | done]. }
  apply elem_of_cons in He as [-> | He]; [| by eauto].
  destruct (retained shellt dedup a h) eqn:Hr.
  - exists a. split; [by apply list_elem_of_here | done].
  - unfold retained in Hr. rewrite Hp, Hf in Hr. cbn [andb] in Hr.
    apply orb_false_elim in Hr as [_ Hex%negb_false_iff].
    apply existsb_parses_to in Hex as (e0 & He0 & Hp0).
    destruct (IH e0 He0 Hp0) as (e' & He' & Hp'). by exists e'.
Qed.

(** The unparseable entries go through untouched. *)
Lemma clean_unparseable (h : list string) :
  List.filter (parses_to shellt None) (clean h)
  = List.filter (parses_to shellt None) h.
Proof.
  induction h as [|e h IH]; [done |].
  rewrite clean_cons. cbn [List.filter].
  destruct (parses_to shellt None e) eqn:Hn.
  - assert (retained shellt dedup e h = true) as ->.
    { unfold retained. apply parses_to_spec in Hn. by rewrite Hn. }
    cbn [List.filter]. by rewrite Hn, IH.
  - destruct (retained _ _ e h); cbn [List.filter]; by rewrite ?Hn, IH.
Qed.

End clean.

(** ** Groups of entries with the same command *)

Lemma filter_nil_existsb {A} (P : A → bool) (l : list A) :
  existsb P l = false → List.filter P l = [].
Proof.
  induction l as [|x l IH]; [done |]. cbn [existsb List.filter].
  intros [-> Hl]%orb_false_elim. auto.
Qed.

Lemma filter_cons_existsb {A} (P : A → bool) (l : list A) :
  existsb P l = true → ∃ x l', List.filter P l = x :: l'.
Proof.
  induction l as [|x l IH]; [done |]. cbn [existsb List.filter].
  destruct (P x); [by eauto | by apply IH].
Qed.

Lemma clean_group_dedup (shellt : ShellType) (h : list string) (c : string) :
  filter c = true →
  List.filter (parses_to shellt (Some c)) (clean_history_file h shellt true)
  = option_list (last (List.filter (parses_to shellt (Some c)) h)).
Proof.
  intros Hf. induction h as [|e h IH]; [done |].
  rewrite clean_cons. unfold retained. cbn [List.filter negb orb].
  destruct (parses_to shellt (Some c) e) eqn:He.
  - rewrite (proj1 (parses_to_spec shellt (Some c) e) He), Hf. cbn [andb].
    destruct (existsb (parses_to shellt (Some c)) h) eqn:Hex; cbn [negb].
    + rewrite IH.
      destruct (filter_cons_existsb _ _ Hex) as (x & l' & ->).
      by rewrite last_cons_cons.
    + cbn [List.filter]. rewrite He, IH.
      by rewrite (filter_nil_existsb _ _ Hex).
  - destruct (match parse_history_entry e shellt with
              | Some _ => _ | None => _ end);
      cbn [List.filter]; by rewrite ?He, IH.
Qed.

Lemma clean_group_all (shellt : ShellType) (h : list string) (c : string) :
  filter c = true →
  List.filter (parses_to shellt (Some c)) (clean_history_file h shellt false)
  = List.filter (parses_to shellt (Some c)) h.
Proof.
  intros Hf. induction h as [|e h IH]; [done |].
  rewrite clean_cons. unfold retained. cbn [List.filter negb orb].
  destruct (parses_to shellt (Some c) e) eqn:He.
  - rewrite (proj1 (parses_to_spec shellt (Some c) e) He), Hf.
    cbn [andb List.filter]. by rewrite He, IH.
  - destruct (match parse_history_entry e shellt with
              | Some _ => _ | None => _ end);
      cbn [List.filter]; by rewrite ?He, IH.
Qed.

Lemma clean_group_rejected (shellt : ShellType) (dedup : bool)
    (h : list string) (c : string) :
  filter c = false →
  List.filter (parses_to shellt (Some c)) (clean_history_file h shellt dedup)
  = [].
Proof.
  intros Hf. induction h as [|e h IH]; [done |].
  rewrite clean_cons. unfold retained.
  destruct (parses_to shellt (Some c) e) eqn:He.
  - by rewrite (proj1 (parses_to_spec shellt (Some c) e) He), Hf.
  - destruct (match parse_history_entry e shellt with
              | Some _ => _ | None => _ end);
      cbn [List.filter]; by rewrite ?He, IH.
Qed.

Lemma retained_last (shellt : ShellType) (dedup : bool) (e c : string)
    (later : list string) :
  parse_history_entry e shellt = Some c → filter c = true →
  (dedup = true → ∀ e', e' ∈ later → parse_history_entry e' shellt ≠ Some c) →
  retained shellt dedup e later = true.
Proof.
  intros Hp Hf Hlast. unfold retained. rewrite Hp, Hf. cbn [andb].
  destruct dedup; [| done]. cbn [negb orb].
  apply negb_true_iff, not_true_iff_false.
  intros (e' & He' & Hp')%existsb_parses_to. by apply (Hlast eq_refl e').
Qed.

(** ** Where the timestamp pattern can match *)

Lemma semicolon_inside_app_r (a b : string) :
  semicolon_inside b = true → semicolon_inside (a +:+ b) = true.
Proof.
  intros Hb. induction a as [|c a IH]; [done |].
  cbn [String.append semicolon_inside]. rewrite IH. apply orb_true_r.
Qed.

Lemma semicolon_inside_digits (d t : string) :
  str_all re_digit d = true →
  semicolon_inside (d +:+ t) = semicolon_inside t.
Proof.
  induction d as [|c d IH]; [done |]. cbn [str_all String.append].
  intros [Hc Hd]%andb_prop. cbn [semicolon_inside].
  rewrite (proj2 (Ascii.eqb_neq c ";") (digit_semicolon c Hc)). auto.
Qed.

Lemma timestamped_semicolon (s tail : string) :
  timestamped s tail → semicolon_inside s = true.
Proof.
  intros (d1 & d2 & x & rest & _ & _ & _ & -> & ->).
  do 4 apply semicolon_inside_app_r. done.
Qed.

Lemma zsh_search_inv (s c : string) :
  zsh_search s = Some c →
  ∃ a b, s = a +:+ b ∧ zsh_command_at b = Some c.
Proof.
  induction s as [|x s IH]; cbn [zsh_search].
  - destruct (zsh_command_at "") eqn:E; [| done].
    intros [= <-]. by exists "", "".
  - destruct (zsh_command_at (String x s)) eqn:E.
    + intros [= <-]. by exists "", (String x s).
    + intros (a & b & -> & Hb)%IH. by exists (String x a), b.
Qed.

Lemma zsh_search_semicolon (s c : string) :
  zsh_search s = Some c → semicolon_inside s = true.
Proof.
  intros (a & b & -> & (tail & Ht & _)%zsh_command_at_sound)%zsh_search_inv.
  eapply semicolon_inside_app_r, timestamped_semicolon, Ht.
Qed.

Lemma zsh_search_nonempty (s c : string) : zsh_search s = Some c → c ≠ "".
Proof.
  intros (a & b & -> & (tail & Ht & ->)%zsh_command_at_sound)%zsh_search_inv.
  destruct Ht as (d1 & d2 & x & rest & _ & _ & Hx%re_dot_LF & -> & _).
  simpl. by rewrite Hx.
Qed.

Lemma zsh_empty_tail_None (d1 d2 : string) :
  digits d1 → digits d2 →
  zsh_search (": " +:+ d1 +:+ ":" +:+ d2 +:+ ";") = None.
Proof.
  intros [_ Hd1] [_ Hd2].
  destruct (zsh_search _) as [c|] eqn:E; [| done].
  apply zsh_search_semicolon in E. cbn [String.append semicolon_inside] in E.
  rewrite semicolon_inside_digits in E by done.
  cbn [String.append semicolon_inside] in E.
  rewrite semicolon_inside_digits in E by done. done.
Qed.

(** ** The retention policy *)

Lemma filter_spec (c : string) :
  filter c = false ↔
  c ∈ _exact_match ∨ c ∈ _editors ∨
  (∃ t, c = "source" +:+ t) ∨ (∃ t, c = "git commit" +:+ t).
Proof.
  unfold filter, startswith. rewrite <- !prefix_app.
  repeat case_bool_decide; [tauto.. |]. unfold _starts_with.
  cbn -[String.prefix].
  destruct (String.prefix "source" c), (String.prefix "git commit" c);
    cbn; intuition congruence.
Qed.

Lemma last_char_snoc (t : string) (x : ascii) :
  last_char (t +:+ String x "") = Some x.
Proof.
  induction t as [|c t IH]; [done |]. cbn [String.append last_char].
  rewrite IH. by destruct t.
Qed.

(** ** Path components *)

Lemma split_pieces (s : string) :
  ∃ front b, split "/" s = front ++ [b] ∧ no_slash b ∧
    ((front = [] ∧ s = b) ∨ (front ≠ [] ∧ ∃ dir, s = dir +:+ "/" +:+ b)).
Proof.
  induction s as [|c s (front & b & Hs & Hb & Hshape)].
  - exists [], "". split; [done |]. split; [done | by left].
  - cbn [split]. rewrite Hs. destruct (Ascii.eqb_spec c "/") as [-> | Hc].
    + exists ("" :: front), b. split; [done |]. split; [done |]. right.
      split; [done |].
      destruct Hshape as [[_ ->] | [_ [dir ->]]];
        [by exists "" | by exists (String "/" dir)].
    + destruct Hshape as [[-> ->] | [Hne [dir ->]]].
      * exists [], (String c b). split; [done |]. split; [| by left].
        unfold no_slash in *. cbn [str_all].
        by rewrite (proj2 (Ascii.eqb_neq c "/") Hc), Hb.
      * destruct front as [|x l]; [done |].
        exists (String c x :: l), b. split; [done |]. split; [done |].
        right. split; [done |]. by exists (String c dir).
Qed.

Lemma split_no_slash (b : string) : no_slash b → split "/" b = [b].
Proof.
  unfold no_slash. induction b as [|c b IH]; [done |]. cbn [str_all split].
  intros [Hc Hb]%andb_prop. apply negb_true_iff in Hc. by rewrite Hc, IH.
Qed.

Lemma split_app_slash (dir b : string) :
  no_slash b → ∃ x l, split "/" (dir +:+ "/" +:+ b) = x :: l ++ [b].
Proof.
  intros Hb. induction dir as [|c dir (x & l & IH)].
  - exists "", []. cbn. by rewrite split_no_slash.
  - change (String c dir +:+ "/" +:+ b) with (String c (dir +:+ "/" +:+ b)).
    cbn [split]. rewrite IH. destruct (Ascii.eqb c "/").
    + by exists "", (x :: l).
    + by exists (String c x), l.
Qed.

Lemma last_item_final (s b : string) :
  last_item (split "/" s) "" = b ↔ final_component s b.
Proof.
  unfold last_item, final_component. split.
  - destruct (split_pieces s) as (front & b' & -> & Hb' & Hshape).
    rewrite List.last_last. intros <-. split; [done |].
    destruct Hshape as [[_ ->] | [_ ?]]; by eauto.
  - intros [Hb [-> | [dir ->]]].
    + by rewrite split_no_slash.
    + destruct (split_app_slash dir b Hb) as (x & l & ->).
      by rewrite app_comm_cons, List.last_last.
Qed.

Lemma ShellType_of_value_spec (value : string) (shellt : ShellType) :
  ShellType_of_value value = Some shellt ↔ value = ShellType_value shellt.
Proof.
  unfold ShellType_of_value.
  destruct (String.eqb_spec value (ShellType_value ZSH)) as [-> | Hz].
  { destruct shellt; by split. }
  destruct (String.eqb_spec value (ShellType_value BASH)) as [-> | Hb].
  { destruct shellt; by split. }
  destruct shellt; by split.
Qed.

Lemma get_shell_type_Returned (shell : option string) (shellt : ShellType) :
  get_shell_type shell = Returned shellt ↔
  ∃ s, shell = Some s ∧ final_component s (ShellType_value shellt).
Proof.
  destruct shell as [s|]; cbn [get_shell_type];
    [| split; [done | by intros (? & ? & ?)]].
  split.
  - destruct s as [|a s]; [done |].
    destruct (ShellType_of_value _) as [t|] eqn:E; [| done].
    intros [= ->]. exists (String a s). split; [done |].
    apply last_item_final. by apply ShellType_of_value_spec in E.
  - intros (s' & [= <-] & Hfc). destruct s as [|a s].
    + destruct Hfc as [_ [H | [dir H]]]; destruct shellt; try done;
        by destruct dir.
    + apply last_item_final in Hfc. rewrite Hfc.
      by rewrite (proj2 (ShellType_of_value_spec _ shellt) eq_refl).
Qed.

Lemma get_shell_type_outcome (shell : option string) :
  (∃ shellt, get_shell_type shell = Returned shellt) ∨
  (∃ printed, get_shell_type shell = Exited printed 1 ∧ printed ≠ "").
Proof.
  destruct shell as [[|a s]|]; cbn [get_shell_type];
    [right; by eexists | | right; by eexists].
  destruct (ShellType_of_value _); [left; by eexists | right; by eexists].
Qed.

Lemma zsh_search_here (t c : string) :
  zsh_command_at t = Some c → zsh_search t = Some c.
Proof. intros Hc. destruct t; cbn [zsh_search]; by rewrite Hc. Qed.

(** * The claims *)

(** ** Parsing *)

(** C1, as stated, fails: the zsh line [: 1:1;], a timestamp prefix with an
    empty tail, is not parsed into the empty command. *)
Lemma zsh_empty_tail_not_empty_command :
  parse_history_entry ": 1:1;" ZSH ≠ Some "".
Proof. by vm_compute. Qed.

(** C1, amended: a zsh line made of the timestamp prefix
    [: <digits>:<digits>;] and nothing else is unparseable (the pattern asks
    for at least one character after the semicolon), so the clean pass keeps
    it verbatim at its place like every unparseable line; and no zsh line at
    all is parsed into the empty command. *)
Theorem zsh_empty_tail_unparseable (d1 d2 : string) :
  digits d1 → digits d2 →
  let line := ": " +:+ d1 +:+ ":" +:+ d2 +:+ ";" in
  parse_history_entry line ZSH = None ∧
  (∀ front later dedup, ∃ kept,
      kept `sublist_of` front ∧
      clean_history_file (front ++ line :: later) ZSH dedup
      = kept ++ line :: clean_history_file later ZSH dedup) ∧
  (∀ entry, parse_history_entry entry ZSH ≠ Some "").
Proof.
  intros Hd1 Hd2 line.
  assert (parse_history_entry line ZSH = None) as Hline.
  { rewrite parse_zsh. by apply zsh_empty_tail_None. }
  split; [done |]. split.
  - intros front later dedup. apply clean_retained_at.
    unfold retained. by rewrite Hline.
  - intros entry. rewrite parse_zsh. intros H.
    by apply zsh_search_nonempty in H.
Qed.

Lemma zsh_empty_tail_unparseable_witness :
  parse_history_entry ": 20:0;" ZSH = None.
Proof.
  refine (proj1 (zsh_empty_tail_unparseable "20" "0" _ _));
    (split; [done | reflexivity]).
Defined.

(** C10, as stated, fails: in the line [echo : 1:2;x] followed by a line
    feed, the text after the timestamp is [x] and the line feed, but the
    command returned is [x] alone. *)
Lemma zsh_command_stops_at_line_feed :
  parse_history_entry ("echo : 1:2;x" +:+ String LF "") ZSH
  ≠ Some ("x" +:+ String LF "").
Proof. by vm_compute. Qed.

(** C10, amended: the zsh pattern is searched for, not anchored.  A line
    that holds [: <digits>:<digits>;] followed by a character other than a
    line feed, after any text [front], parses successfully; and when that is
    the first such occurrence in the line, the command returned is the text
    after it up to, and without, the first line feed that follows (or up to
    the end of the line when there is none). *)
Theorem zsh_search_unanchored (front d1 d2 rest : string) (x : ascii) :
  digits d1 → digits d2 → x ≠ LF →
  let stamped := ": " +:+ d1 +:+ ":" +:+ d2 +:+ ";" +:+ String x rest in
  is_Some (parse_history_entry (front +:+ stamped) ZSH) ∧
  ((∀ a b tail, front = a +:+ b → b ≠ "" →
      ¬ timestamped (b +:+ stamped) tail) →
   parse_history_entry (front +:+ stamped) ZSH
   = Some (String x (take_while re_dot rest))).
Proof.
  intros Hd1 Hd2 Hx stamped. rewrite parse_zsh.
  set (command := String x (take_while re_dot rest)).
  assert (zsh_command_at stamped = Some command) as Hhere
    by by apply zsh_command_at_complete.
  clearbody stamped command.
  split.
  - apply zsh_search_found. by rewrite Hhere.
  - intros Hfirst. rewrite zsh_search_skip; [by apply zsh_search_here |].
    intros a b Hfront Hb.
    destruct (zsh_command_at (b +:+ stamped)) as [c|] eqn:E; [| done].
    apply zsh_command_at_sound in E as (tail & Ht & _).
    by destruct (Hfirst a b tail).
Qed.

Lemma zsh_search_unanchored_witness :
  parse_history_entry ("echo : 1:2;x" +:+ String LF "") ZSH = Some "x".
Proof.
  refine (proj2 (zsh_search_unanchored "echo " "1" "2" (String LF "") "x"
                   _ _ _) _);
    [split; [done | reflexivity] | split; [done | reflexivity] | done |].
  intros a b tail Hfront Hb (e1 & e2 & y & rest & _ & _ & _ & _ & Heq).
  do 5 (destruct a as [|? a]; cbn in Hfront;
        [subst b; by cbn in Heq | injection Hfront as <- Hfront]).
  destruct a; cbn in Hfront; [by subst b | done].
Defined.

Example zsh_search_unanchored_echo :
  parse_history_entry "echo : 1:2;x" ZSH = Some "x".
Proof. by vm_compute. Qed.

(** ** The clean pass *)

(** C2: for every history, shell variant and command [c], look at the
    entries that parse to [c].  When the policy keeps [c]: with deduplication
    the output holds exactly one of them, the last one of the input, and it
    sits where that last one sat, in front of what the pass makes of the
    entries after it; without deduplication the output holds all of them.
    When the policy rejects [c], the output holds none, in both modes. *)
Theorem clean_dedup_last_wins (shellt : ShellType) (h : list string)
    (c : string) :
  let same_command := List.filter (parses_to shellt (Some c)) in
  (filter c = true →
     same_command (clean_history_file h shellt true)
     = option_list (last (same_command h)) ∧
     same_command (clean_history_file h shellt false) = same_command h ∧
     ∀ front e later,
       h = front ++ e :: later →
       parse_history_entry e shellt = Some c →
       (∀ e', e' ∈ later → parse_history_entry e' shellt ≠ Some c) →
       ∃ kept, kept `sublist_of` front ∧
               clean_history_file h shellt true
               = kept ++ e :: clean_history_file later shellt true) ∧
  (filter c = false →
     ∀ dedup, same_command (clean_history_file h shellt dedup) = []).
Proof.
  intros same_command. split.
  - intros Hf. split; [by apply clean_group_dedup |].
    split; [by apply clean_group_all |].
    intros front e later -> Hp Hlast. apply clean_retained_at.
    by apply (retained_last shellt true e c).
  - intros Hf dedup. by apply clean_group_rejected.
Qed.

Lemma clean_dedup_last_wins_witness :
  List.filter (parses_to ZSH (Some "echo hi"))
    (clean_history_file [": 1:1;ls"; ": 2:1;echo hi"; ": 3:1;echo hi"] ZSH true)
  = [": 3:1;echo hi"].
Proof.
  refine (proj1 (proj1 (clean_dedup_last_wins ZSH
            [": 1:1;ls"; ": 2:1;echo hi"; ": 3:1;echo hi"] "echo hi") _)).
  reflexivity.
Defined.

(** C3: the clean pass has no length limit.  An entry whose command the
    policy keeps and that has no later duplicate (or any such entry when
    deduplication is off) is retained at its place, whatever
    [remove_long_commands] answers for its command at whatever threshold:
    that function is not part of the pass. *)
Theorem clean_ignores_length (shellt : ShellType) (dedup : bool)
    (front later : list string) (e c : string) (n : nat) (keep : bool) :
  parse_history_entry e shellt = Some c →
  filter c = true →
  (dedup = true →
   ∀ e', e' ∈ later → parse_history_entry e' shellt ≠ Some c) →
  remove_long_commands c n = keep →
  ∃ kept, kept `sublist_of` front ∧
          clean_history_file (front ++ e :: later) shellt dedup
          = kept ++ e :: clean_history_file later shellt dedup.
Proof.
  intros Hp Hf Hlast _. apply clean_retained_at.
  by apply (retained_last shellt dedup e c).
Qed.

Lemma clean_ignores_length_witness :
  let c := "echo 0123456789 0123456789 0123456789 0123456789 0123456789 01234" in
  remove_long_commands c 60 = false ∧
  ∃ kept, kept `sublist_of` [] ∧
          clean_history_file ([] ++ [": 1:1;" +:+ c]) ZSH true
          = kept ++ [": 1:1;" +:+ c].
Proof.
  intros c. split; [reflexivity |].
  refine (clean_ignores_length ZSH true [] [] (": 1:1;" +:+ c) c 60 false
            _ _ _ _).
  - by vm_compute.
  - by vm_compute.
  - intros _ e' He'. by apply elem_of_nil in He'.
  - reflexivity.
Defined.

(** C4: the entries that do not parse are all in the output, unchanged and
    in their original order, with deduplication on or off: the unparseable
    entries of the output are those of the input, and each one sits in front
    of what the pass makes of the entries after it. *)
Theorem clean_keeps_unparseable (shellt : ShellType) (dedup : bool)
    (h : list string) :
  List.filter (parses_to shellt None) (clean_history_file h shellt dedup)
  = List.filter (parses_to shellt None) h ∧
  ∀ front e later,
    h = front ++ e :: later →
    parse_history_entry e shellt = None →
    ∃ kept, kept `sublist_of` front ∧
            clean_history_file h shellt dedup
            = kept ++ e :: clean_history_file later shellt dedup.
Proof.
  split; [apply clean_unparseable |].
  intros front e later -> Hp. apply clean_retained_at.
  unfold retained. by rewrite Hp.
Qed.

Lemma clean_keeps_unparseable_witness :
  ∃ kept, kept `sublist_of` [": 1:1;ls"] ∧
          clean_history_file [": 1:1;ls"; "no timestamp"; ": 2:1;pwd"] ZSH true
          = kept ++ "no timestamp" :: clean_history_file [": 2:1;pwd"] ZSH true.
Proof.
  refine (proj2 (clean_keeps_unparseable ZSH true
                   [": 1:1;ls"; "no timestamp"; ": 2:1;pwd"])
                [": 1:1;ls"] "no timestamp" [": 2:1;pwd"] _ _).
  - reflexivity.
  - by vm_compute.
Defined.

(** C5: cleaning a cleaned history again, with deduplication, changes
    nothing. *)
Theorem clean_idempotent (shellt : ShellType) (h : list string) :
  clean_history_file (clean_history_file h shellt true) shellt true
  = clean_history_file h shellt true.
Proof. apply clean_settled, settled_clean. Qed.

(** C6: the output is a subsequence of the input: every entry of the output
    is an entry of the input, and the output lists them in the order of the
    input. *)
Theorem clean_preserves_order (shellt : ShellType) (dedup : bool)
    (h : list string) :
  clean_history_file h shellt dedup `sublist_of` h.
Proof. apply clean_sublist. Qed.

(** ** The retention policy *)

(** C7: [filter] answers [False] exactly for the nine exact strings, the
    six editor names and the commands that start with [source] or
    [git commit]; it answers [True] for every other command. *)
Theorem filter_policy (c : string) :
  let rejected :=
    c ∈ ["python"; "clear"; "ls"; "pwd"; "cd ~"; "cd /"; "cd"; "cd .."; "cd ."] ∨
    c ∈ ["nano"; "vim"; "nvim"; "subl"; "code"; "emacs"] ∨
    (∃ t, c = "source" +:+ t) ∨ (∃ t, c = "git commit" +:+ t) in
  (filter c = false ↔ rejected) ∧ (filter c = true ↔ ¬ rejected).
Proof.
  intros rejected.
  assert (filter c = false ↔ rejected) as H by apply filter_spec.
  clearbody rejected. split; [done |].
  rewrite <- H. destruct (filter c); intuition congruence.
Qed.

(** C9: for the bash variant the parsed command is the raw line, line
    terminator included.  So a line made of an exact-match or editor command
    and a line feed passes [filter] and is still in the output of the clean
    pass; those two rules only reject lines that do not end in a line
    feed. *)
Theorem bash_terminator_defeats_exact_rules :
  (∀ entry, parse_history_entry entry BASH = Some entry) ∧
  (∀ c, c ∈ _exact_match ++ _editors →
     let line := c +:+ String LF "" in
     filter line = true ∧
     ∀ h dedup, line ∈ h → line ∈ clean_history_file h BASH dedup) ∧
  (∀ line c, parse_history_entry line BASH = Some c →
     c ∈ _exact_match ++ _editors → last_char line ≠ Some LF).
Proof.
  split; [done |]. split.
  - intros c Hc line.
    assert (filter line = true) as Hf.
    { unfold line, _exact_match, _editors in *. cbn [app] in Hc.
      repeat (apply elem_of_cons in Hc as [-> | Hc]; [by vm_compute |]).
      by apply elem_of_nil in Hc. }
    split; [done |]. intros h dedup Hin.
    destruct (clean_keeps_command BASH dedup h line line Hin eq_refl Hf)
      as (e' & He' & [= ->]).
    done.
  - intros line c [= <-] Hc. unfold _exact_match, _editors in Hc.
    cbn [app] in Hc.
    repeat (apply elem_of_cons in Hc as [-> | Hc]; [by vm_compute |]).
    by apply elem_of_nil in Hc.
Qed.

Lemma bash_terminator_defeats_exact_rules_witness :
  filter ("cd" +:+ String LF "") = true.
Proof.
  refine (proj1 (proj1 (proj2 bash_terminator_defeats_exact_rules) "cd" _)).
  apply (bool_decide_unpack _). by vm_compute.
Defined.

(** ** Shell detection *)

(** C8: [get_shell_type] returns the zsh (bash) variant exactly when SHELL
    is set and the final component of its path is [zsh] ([bash]); in every
    other case it prints a message and exits with status 1. *)
Theorem get_shell_type_spec (shell : option string) :
  (get_shell_type shell = Returned ZSH ↔
   ∃ s, shell = Some s ∧ final_component s "zsh") ∧
  (get_shell_type shell = Returned BASH ↔
   ∃ s, shell = Some s ∧ final_component s "bash") ∧
  ((∀ s, shell = Some s →
      ¬ final_component s "zsh" ∧ ¬ final_component s "bash") →
   ∃ printed status,
     get_shell_type shell = Exited printed status ∧
     printed ≠ "" ∧ status ≠ 0%Z).
Proof.
  split; [apply (get_shell_type_Returned shell ZSH) |].
  split; [apply (get_shell_type_Returned shell BASH) |].
  intros Hother.
  destruct (get_shell_type_outcome shell) as [[t Ht] | (printed & Hp & Hne)].
  - apply get_shell_type_Returned in Ht as (s & Hs & Hfc).
    destruct (Hother s Hs) as [Hz Hb]. by destruct t.
  - by exists printed, 1%Z.
Qed.

Lemma get_shell_type_spec_witness :
  ∃ printed status,
    get_shell_type (Some "/usr/bin/fish") = Exited printed status ∧
    printed ≠ "" ∧ status ≠ 0%Z.
Proof.
  refine (proj2 (proj2 (get_shell_type_spec (Some "/usr/bin/fish"))) _).
  intros s [= <-]. split; intros H%last_item_final; by vm_compute in H.
Defined.

(** ** The scenarios of the specification, run on the model *)

Example scenario_zsh_dedup :
  clean_history_file [": 1:1;ls"; ": 2:1;echo hi"; ": 3:1;echo hi"] ZSH true
  = [": 3:1;echo hi"].
Proof. by vm_compute. Qed.

Example scenario_bash_policy :
  clean_history_file ["cd"; "ls -la"; "cd"] BASH true = ["ls -la"].
Proof. by vm_compute. Qed.

Example scenario_prefix_rule :
  clean_history_file ["git commit -m x"] BASH true = [] ∧
  clean_history_file ["git commit -m x"] BASH false = [].
Proof. by vm_compute. Qed.

Example scenario_malformed_zsh :
  clean_history_file [": 1:1"; ": 1:1"] ZSH true = [": 1:1"; ": 1:1"].
Proof. by vm_compute. Qed.

Example scenario_duplicate_raw_lines :
  clean_history_file ["make"; "ls -la"; "make"] BASH true = ["ls -la"; "make"].
Proof. by vm_compute. Qed.

Example parse_zsh_retries_later_position :
  parse_history_entry ": 1: 22:333;git status" ZSH = Some "git status".
Proof. by vm_compute. Qed.

Example parse_zsh_group_1 :
  (re_search zsh_pattern "x: 10:0;ls -la" ≫= λ m, group m 1) = Some ": 10:0;".
Proof. by vm_compute. Qed.

Example get_shell_type_zsh :
  get_shell_type (Some "/bin/zsh") = Returned ZSH.
Proof. reflexivity. Qed.

Example get_shell_type_unset :
  get_shell_type None = Exited "Can't determine type of shell, exiting." 1.
Proof. reflexivity. Qed.

Example get_shell_type_fish :
  get_shell_type (Some "/usr/bin/fish")
  = Exited "Unsupported shell type /usr/bin/fish, exiting." 1.
Proof. reflexivity. Qed.

(** * Further properties of the script *)

(** ** [parse_history_entry] *)

Lemma no_semicolon_inside (s : string) :
  no_semicolon s = true → semicolon_inside s = false.
Proof.
  unfold no_semicolon. induction s as [|c s IH]; [done |].
  cbn [str_all semicolon_inside]. intros [Hc Hs]%andb_prop.
  apply negb_true_iff in Hc. by rewrite Hc, IH.
Qed.

Lemma drop_while_dot (s : string) :
  drop_while re_dot s = "" ∨ ∃ r, drop_while re_dot s = String LF r.
Proof.
  pose proof (drop_while_head re_dot s) as H.
  destruct (drop_while re_dot s) as [|c r]; [by left |]. right. exists r.
  assert (c = LF) as ->; [| done].
  destruct (decide (c = LF)) as [|Hc]; [done |].
  apply re_dot_LF in Hc. congruence.
Qed.

(** X1: the command that the zsh variant returns is never empty and holds no
    line feed, and it stands in the raw line as it is, right after a
    semicolon and up to the end of the line or to the next line feed. *)
Theorem zsh_command_is_one_line (entry c : string) :
  parse_history_entry entry ZSH = Some c →
  c ≠ "" ∧ str_all re_dot c = true ∧
  ∃ before after,
    entry = before +:+ ";" +:+ c +:+ after ∧
    (after = "" ∨ ∃ r, after = String LF r).
Proof.
  rewrite parse_zsh. intros H. split; [by eapply zsh_search_nonempty |].
  apply zsh_search_inv in H as (a & b & -> & H).
  apply zsh_command_at_sound in H as (tail & Ht & ->).
  split; [apply str_all_take_while |].
  destruct Ht as (d1 & d2 & x & rest & _ & _ & _ & _ & ->).
  exists (a +:+ ": " +:+ d1 +:+ ":" +:+ d2), (drop_while re_dot tail).
  split; [| apply drop_while_dot].
  rewrite <- (take_drop_while re_dot tail) at 1.
  by rewrite !app_String_assoc.
Qed.

Lemma zsh_command_is_one_line_witness :
  ∃ before after,
    ": 1:0;ls -la" +:+ String LF "" = before +:+ ";" +:+ "ls -la" +:+ after ∧
    (after = "" ∨ ∃ r, after = String LF r).
Proof.
  refine (proj2 (proj2 (zsh_command_is_one_line
                          (": 1:0;ls -la" +:+ String LF "") "ls -la" _))).
  by vm_compute.
Defined.

(** X2: a zsh line is unparseable exactly when at none of its positions the
    text [: <digits>:<digits>;] followed by a character other than a line
    feed starts. *)
Theorem zsh_unparseable_iff (entry : string) :
  parse_history_entry entry ZSH = None ↔
  ∀ a b tail, entry = a +:+ b → ¬ timestamped b tail.
Proof.
  rewrite parse_zsh. split.
  - intros Hnone a b tail -> (d1 & d2 & x & rest & Hd1 & Hd2 & Hx & -> & ->).
    pose proof (zsh_command_at_complete d1 d2 rest x Hd1 Hd2 Hx) as Hc.
    destruct (zsh_search_found a _ (mk_is_Some _ _ Hc)) as [c' Hc'].
    congruence.
  - intros Hno. destruct (zsh_search entry) as [c|] eqn:E; [| done].
    apply zsh_search_inv in E as (a & b & -> & Hb).
    apply zsh_command_at_sound in Hb as (tail & Ht & _).
    by destruct (Hno a b tail).
Qed.

(** X3: in a zsh history a line without a semicolon never parses, so the
    clean pass keeps it at its place whatever it says and whatever comes
    after it, be it a command that the policy rejects or a duplicate. *)
Theorem zsh_plain_line_is_kept (entry : string) (front later : list string)
    (dedup : bool) :
  no_semicolon entry = true →
  parse_history_entry entry ZSH = None ∧
  ∃ kept, kept `sublist_of` front ∧
          clean_history_file (front ++ entry :: later) ZSH dedup
          = kept ++ entry :: clean_history_file later ZSH dedup.
Proof.
  intros Hs%no_semicolon_inside.
  assert (parse_history_entry entry ZSH = None) as Hp.
  { rewrite parse_zsh. destruct (zsh_search entry) as [c|] eqn:E; [| done].
    apply zsh_search_semicolon in E. congruence. }
  split; [done |]. apply clean_retained_at. unfold retained. by rewrite Hp.
Qed.

Lemma zsh_plain_line_is_kept_witness :
  ∃ kept, kept `sublist_of` [] ∧
          clean_history_file ([] ++ ["ls"; "ls"]) ZSH true
          = kept ++ "ls" :: clean_history_file ["ls"] ZSH true.
Proof.
  refine (proj2 (zsh_plain_line_is_kept "ls" [] ["ls"] true _)).
  reflexivity.
Defined.

(** ** [filter] and [remove_long_commands] *)

Ltac rejected_cases H :=
  apply filter_spec in H; unfold _exact_match, _editors in H;
  rewrite !elem_of_cons, !elem_of_nil in H;
  repeat (destruct H as [H | H]);
  try match type of H with ex _ => destruct H as [? H] end;
  cbn in H; simplify_eq.

Ltac refute_rejected H := by rejected_cases H.

(** X4: the exact rules reject the bare command only.  An editor name, or
    [python], [clear], [ls] or [pwd], followed by anything at all is kept
    ([vim notes.txt], [ls -la], [python3]); [cd] followed by some text is
    rejected for the four targets of the list and kept for every other. *)
Theorem filter_keeps_commands_with_arguments (t : string) :
  (∀ c, c ∈ _editors ++ ["python"; "clear"; "ls"; "pwd"] →
        t ≠ "" → filter (c +:+ t) = true) ∧
  (filter ("cd" +:+ t) = false ↔ t ∈ [""; " ~"; " /"; " .."; " ."]).
Proof.
  split.
  - intros c Hc Ht. unfold _editors in Hc. cbn [app] in Hc.
    apply not_false_iff_true. intros H.
    repeat (apply elem_of_cons in Hc as [-> | Hc]; [refute_rejected H |]).
    by apply elem_of_nil in Hc.
  - rewrite !elem_of_cons, elem_of_nil. split.
    + intros H. rejected_cases H; tauto.
    + intros H. repeat (destruct H as [-> | H]); [by vm_compute.. | done].
Qed.

Lemma filter_keeps_commands_with_arguments_witness :
  filter ("vim" +:+ " notes.txt") = true.
Proof.
  refine (proj1 (filter_keeps_commands_with_arguments " notes.txt") "vim" _ _).
  - apply (bool_decide_unpack _). by vm_compute.
  - done.
Defined.

(** X5: [remove_long_commands] measures the parsed command, not the raw
    line.  For the zsh variant the command is at least six characters
    shorter than its line, the shortest timestamp being [: 0:0;]; so a line
    that would be kept at the threshold [n + 6] has a command that is kept at
    the threshold [n].  And what is kept at one threshold is kept at every
    larger one. *)
Theorem remove_long_commands_of_zsh_command (entry c : string) (n m : nat) :
  parse_history_entry entry ZSH = Some c →
  (String.length c + 6 ≤ String.length entry) ∧
  (remove_long_commands entry (n + 6) = true →
   remove_long_commands c n = true) ∧
  (n ≤ m → remove_long_commands c n = true → remove_long_commands c m = true).
Proof.
  intros Hp.
  assert (String.length c + 6 ≤ String.length entry) as Hlen.
  { rewrite parse_zsh in Hp.
    apply zsh_search_inv in Hp as (a & b & -> & H).
    apply zsh_command_at_sound in H as (tail & Ht & ->).
    destruct Ht as (d1 & d2 & x & rest & [Hd1 _] & [Hd2 _] & _ & _ & ->).
    rewrite <- (take_drop_while re_dot tail) at 2.
    rewrite !length_app_String.
    destruct d1; [done |]. destruct d2; [done |]. cbn. lia. }
  unfold remove_long_commands. split; [done |].
  split; intros H; repeat case_match; try done;
    rewrite ?Nat.ltb_lt, ?Nat.ltb_ge in *; lia.
Qed.

Lemma remove_long_commands_of_zsh_command_witness :
  String.length "ls -la" + 6 ≤ String.length ": 10:0;ls -la".
Proof.
  refine (proj1 (remove_long_commands_of_zsh_command
                   ": 10:0;ls -la" "ls -la" 0 0 _)).
  by vm_compute.
Defined.

(** ** [clean_history_file] *)

Lemma existsb_clean (shellt : ShellType) (dedup : bool) (h : list string)
    (c : string) :
  filter c = true →
  existsb (parses_to shellt (Some c)) (clean_history_file h shellt dedup)
  = existsb (parses_to shellt (Some c)) h.
Proof.
  intros Hf. apply eq_true_iff_eq. rewrite !existsb_parses_to. split.
  - intros (e & He & Hp). exists e. split; [by eapply clean_elem_of | done].
  - intros (e & He & Hp). by eapply clean_keeps_command.
Qed.

Lemma retained_compose (shellt : ShellType) (d1 d2 : bool) (e : string)
    (h : list string) :
  retained shellt (d1 || d2) e h
  = retained shellt d1 e h &&
    retained shellt d2 e (clean_history_file h shellt d1).
Proof.
  unfold retained. destruct (parse_history_entry e shellt) as [c|]; [| done].
  destruct (filter c) eqn:Hf; [| done]. cbn [andb].
  rewrite (existsb_clean shellt d1 h c Hf).
  by destruct d1, d2, (existsb _ h).
Qed.

(** X6: two passes in a row are one pass that deduplicates if either of them
    does.  So the pass is idempotent in both modes, deduplicating what a
    pass without deduplication left gives what deduplication gives at once,
    and the deduplicated history is a subsequence of the one that is only
    filtered. *)
Theorem clean_compose (shellt : ShellType) (d1 d2 : bool) (h : list string) :
  clean_history_file (clean_history_file h shellt d1) shellt d2
  = clean_history_file h shellt (d1 || d2) ∧
  clean_history_file h shellt true
  `sublist_of` clean_history_file h shellt false.
Proof.
  assert (∀ d1 d2 h,
    clean_history_file (clean_history_file h shellt d1) shellt d2
    = clean_history_file h shellt (d1 || d2)) as Hcompose.
  { clear. intros d1 d2 h. induction h as [|e h IH]; [done |].
    rewrite (clean_cons shellt d1), (clean_cons shellt (d1 || d2)).
    rewrite retained_compose.
    destruct (retained shellt d1 e h); cbn [andb]; [| done].
    by rewrite clean_cons, IH. }
  split; [apply Hcompose |].
  pose proof (Hcompose false true h) as E. cbn [orb] in E.
  rewrite <- E. apply clean_sublist.
Qed.

Lemma clean_omap_nodup (shellt : ShellType) (h : list string) :
  NoDup (omap (λ e, parse_history_entry e shellt)
              (clean_history_file h shellt true)).
Proof.
  induction h as [|e h IH]; [by constructor |].
  rewrite clean_cons. destruct (retained shellt true e h) eqn:Hr; [| done].
  cbn [omap list_omap]. unfold retained in Hr.
  destruct (parse_history_entry e shellt) as [c|]; [| done].
  apply andb_prop in Hr as [Hf Hr]. cbn [negb orb] in Hr.
  apply NoDup_cons. split; [| done].
  rewrite list_elem_of_omap. intros (e' & He' & Hp').
  apply negb_true_iff, not_true_iff_false in Hr. apply Hr.
  apply existsb_parses_to. exists e'. split; [by eapply clean_elem_of | done].
Qed.

(** X7: after a pass with deduplication no two entries of the output parse
    to the same command. *)
Theorem clean_commands_nodup (shellt : ShellType) (h : list string) :
  NoDup (omap (λ e, parse_history_entry e shellt)
              (clean_history_file h shellt true)).
Proof. apply clean_omap_nodup. Qed.

Lemma retained_app (shellt : ShellType) (dedup : bool) (e : string)
    (h1 h2 : list string) :
  retained shellt dedup e (h1 ++ h2)
  = retained shellt dedup e h1 && survives shellt dedup h2 e.
Proof.
  unfold retained, survives.
  destruct (parse_history_entry e shellt) as [c|]; [| done].
  rewrite existsb_app.
  by destruct (filter c), dedup, (existsb _ h1), (existsb _ h2).
Qed.

(** X8: the pass over a history in two parts.  The newer part is cleaned as
    if it were alone; of the cleaned older part there remain the entries that
    are no duplicate of a newer one.  Without deduplication the pass goes
    through both parts separately. *)
Theorem clean_app_parts (shellt : ShellType) (dedup : bool)
    (older newer : list string) :
  clean_history_file (older ++ newer) shellt dedup
  = List.filter (survives shellt dedup newer)
      (clean_history_file older shellt dedup)
    ++ clean_history_file newer shellt dedup ∧
  clean_history_file (older ++ newer) shellt false
  = clean_history_file older shellt false
    ++ clean_history_file newer shellt false.
Proof.
  assert (∀ dedup, clean_history_file (older ++ newer) shellt dedup
    = List.filter (survives shellt dedup newer)
        (clean_history_file older shellt dedup)
      ++ clean_history_file newer shellt dedup) as Hparts.
  { clear. intros dedup. induction older as [|e older IH]; [done |].
    cbn [app]. rewrite !clean_cons, retained_app, IH.
    destruct (retained shellt dedup e older); cbn [andb List.filter];
      [| done].
    by destruct (survives shellt dedup newer e). }
  split; [apply Hparts |]. rewrite Hparts. f_equal.
  induction (clean_history_file older shellt false) as [|e l IH]; [done |].
  cbn [List.filter].
  assert (survives shellt false newer e = true) as ->; [| by rewrite IH].
  unfold survives. by destruct (parse_history_entry e shellt).
Qed.

(** X9: a history of which no entry parses, such as a zsh history written
    without timestamps, comes out of the pass as it went in. *)
Theorem clean_unparseable_history (shellt : ShellType) (dedup : bool)
    (h : list string) :
  (∀ e, e ∈ h → parse_history_entry e shellt = None) →
  clean_history_file h shellt dedup = h.
Proof.
  intros Hnone. apply clean_settled.
  induction h as [|e h IH]; [done |]. split.
  - unfold retained. rewrite (Hnone e); [done | by left].
  - apply IH. intros e' He'. apply Hnone. by right.
Qed.

Lemma clean_unparseable_history_witness :
  clean_history_file ["ls"; "cd"; "ls"] ZSH true = ["ls"; "cd"; "ls"].
Proof.
  refine (clean_unparseable_history ZSH true ["ls"; "cd"; "ls"] _).
  intros e He. apply list_elem_of_In in He. cbn in He.
  repeat (destruct He as [<- | He]; [by vm_compute |]). done.
Defined.

(** X10: for the bash variant, where every line is its own command, the
    pass without deduplication is the plain filtering of the lines by the
    policy, and the pass with deduplication returns lines that pass the
    policy and are pairwise different. *)
Theorem clean_bash (h : list string) :
  clean_history_file h BASH false = List.filter filter h ∧
  NoDup (clean_history_file h BASH true) ∧
  (∀ line, line ∈ clean_history_file h BASH true → filter line = true).
Proof.
  split; [| split].
  - induction h as [|e h IH]; [done |].
    rewrite clean_cons. unfold retained.
    cbn [parse_history_entry negb orb List.filter]. rewrite andb_true_r.
    destruct (filter e); by rewrite IH.
  - pose proof (clean_omap_nodup BASH h) as H.
    revert H. generalize (clean_history_file h BASH true). clear.
    intros l. cbn. induction l as [|e l IH]; [done |]. cbn. 
    intros [Hin Hnd]%NoDup_cons. apply NoDup_cons. 
    assert (omap (λ e0 : string, Some e0) l = l) as E.
    { clear. induction l as [|x l IH]; [done |]. cbn. by rewrite IH. }
    rewrite E in *. auto.
  - induction h as [|e h IH]; intros line; [by intros ?%elem_of_nil |].
    rewrite clean_cons. unfold retained.
    cbn [parse_history_entry negb orb].
    destruct (filter e) eqn:Hf; cbn [andb]; [| by apply IH].
    destruct (existsb _ h); cbn [negb]; [by apply IH |].
    intros [-> | Hin]%elem_of_cons; [done | by apply IH].
Qed.

Lemma clean_bash_witness :
  filter "make" = true.
Proof.
  refine (proj2 (proj2 (clean_bash ["make"; "ls"; "make"])) "make" _).
  apply (bool_decide_unpack _). by vm_compute.
Defined.

(** X11: what the loop of the pass keeps in its variables.  [unparsed]
    counts the entries that do not parse, and the set of seen values is the
    set of the parsed values of the entries retained so far, with [None] in
    it once an unparseable entry went by. *)
Theorem clean_loop_invariant (shellt : ShellType) (dedup : bool)
    (h : list string) :
  let σ := clean_loop shellt dedup (reverse h) in
  reverse (results σ) = clean_history_file h shellt dedup ∧
  unparsed σ = length (List.filter (parses_to shellt None) h) ∧
  unique_parsed_entries σ
  = list_to_set ((λ e, parse_history_entry e shellt) <$> results σ).
Proof.
  cbn zeta. split; [done |].
  induction h as [|e h [IHn IHs]]; [done |].
  rewrite reverse_cons, clean_loop_snoc. unfold clean_step.
  cbn [List.filter]. unfold parses_to at 1.
  destruct (parse_history_entry e shellt) as [c|] eqn:Hp.
  - rewrite (bool_decide_eq_false_2 (Some c = None)) by done.
    destruct (negb (filter c)); [by split |].
    destruct (dedup && _); [by split |].
    cbn [unparsed results unique_parsed_entries].
    split; [done |]. rewrite fmap_app, list_to_set_app_L, IHs.
    cbn [fmap list_fmap list_to_set]. rewrite Hp.
    by rewrite (right_id_L ∅ (∪)), (comm_L (∪)).
  - rewrite (bool_decide_eq_true_2 (None = None)) by done.
    cbn [unparsed results unique_parsed_entries length].
    split; [by rewrite IHn |]. rewrite fmap_app, list_to_set_app_L, IHs.
    cbn [fmap list_fmap list_to_set]. rewrite Hp.
    by rewrite (right_id_L ∅ (∪)), (comm_L (∪)).
Qed.

(** ** [get_shell_type] and [get_shell_history_file] *)

(** X12: [get_shell_type] names the reason when it gives up.  It says that
    it cannot determine the shell exactly when SHELL is unset or empty; for
    any other value whose final component is neither [zsh] nor [bash] it
    says that the shell is unsupported and quotes the value in full. *)
Theorem get_shell_type_messages (shell : option string) :
  (get_shell_type shell = Exited "Can't determine type of shell, exiting." 1 ↔
   shell = None ∨ shell = Some "") ∧
  (∀ s, shell = Some s → s ≠ "" →
     ¬ final_component s "zsh" → ¬ final_component s "bash" →
     get_shell_type shell
     = Exited ("Unsupported shell type " +:+ s +:+ ", exiting.") 1).
Proof.
  split.
  - split; [| by intros [-> | ->]].
    destruct shell as [[|a s]|]; cbn [get_shell_type]; [by right | | by left].
    by destruct (ShellType_of_value _).
  - intros s -> Hs Hz Hb. destruct s as [|a s]; [done |].
    cbn [get_shell_type].
    destruct (ShellType_of_value _) as [t|] eqn:E; [| done].
    apply ShellType_of_value_spec, last_item_final in E. by destruct t.
Qed.

Lemma get_shell_type_messages_witness :
  get_shell_type (Some "/bin/Zsh")
  = Exited ("Unsupported shell type " +:+ "/bin/Zsh" +:+ ", exiting.") 1.
Proof.
  refine (proj2 (get_shell_type_messages (Some "/bin/Zsh"))
                "/bin/Zsh" eq_refl _ _ _);
    [done | intros H%last_item_final | intros H%last_item_final];
    by vm_compute in H.
Defined.

(** X13: only the text after the last slash counts, and it has to be [zsh]
    or [bash] to the letter: with any other final component the value of
    SHELL is unsupported, the empty component of a value that ends in a
    slash, such as [/bin/zsh/], included. *)
Theorem get_shell_type_whole_name (dir name : string) :
  no_slash name → name ≠ "zsh" → name ≠ "bash" →
  get_shell_type (Some (dir +:+ "/" +:+ name))
  = Exited ("Unsupported shell type " +:+ (dir +:+ "/" +:+ name)
            +:+ ", exiting.") 1.
Proof.
  intros Hn Hz Hb.
  assert (last_item (split "/" (dir +:+ "/" +:+ name)) "" = name) as Hlast.
  { apply last_item_final. split; [done |]. right. by exists dir. }
  assert (∃ a r, dir +:+ "/" +:+ name = String a r) as (a & r & E)
    by (destruct dir; by eexists _, _).
  rewrite E. cbn [get_shell_type]. rewrite <- E, Hlast.
  destruct (ShellType_of_value name) as [t|] eqn:Ht; [| done].
  apply ShellType_of_value_spec in Ht. by destruct t.
Qed.

Lemma get_shell_type_whole_name_witness :
  get_shell_type (Some ("/bin/zsh" +:+ "/" +:+ ""))
  = Exited ("Unsupported shell type " +:+ ("/bin/zsh" +:+ "/" +:+ "")
            +:+ ", exiting.") 1.
Proof. by refine (get_shell_type_whole_name "/bin/zsh" "" _ _ _). Defined.

(** X14: [get_shell_history_file] returns the one path that belongs to the
    variant when a file is there, and gives up when none is; a path that it
    returns exists; and no other file counts for its answer. *)
Theorem get_shell_history_file_spec (home : string)
    (files : gmap string string) (shellt : ShellType) :
  let file :=
    home +:+ "/" +:+ match shellt with
                     | ZSH => ".zsh_history"
                     | BASH => ".bash_history"
                     end in
  (is_Some (files !! file) →
   get_shell_history_file home files shellt = Returned file) ∧
  (files !! file = None →
   get_shell_history_file home files shellt
   = Exited "Can't find shell history file, exiting." 1) ∧
  (∀ p, get_shell_history_file home files shellt = Returned p →
        is_Some (files !! p)) ∧
  (∀ p content, p ≠ file →
     get_shell_history_file home (<[p := content]> files) shellt
     = get_shell_history_file home files shellt).
Proof.
  intros file. unfold get_shell_history_file, path_exists. fold file.
  split; [| split; [| split]].
  - intros H. by rewrite bool_decide_eq_true_2.
  - intros H. rewrite bool_decide_eq_false_2; [done |].
    rewrite H. by intros [? ?].
  - intros p. case_bool_decide; [by intros [= <-] | done].
  - intros p content Hp. by rewrite lookup_insert_ne.
Qed.

Lemma get_shell_history_file_spec_witness :
  get_shell_history_file "/home/u" {["/home/u/.zsh_history" := ""]} ZSH
  = Returned "/home/u/.zsh_history".
Proof.
  refine (proj1 (get_shell_history_file_spec "/home/u"
                   {["/home/u/.zsh_history" := ""]} ZSH) _).
  exists "". by vm_compute.
Defined.

(** ** Reading and writing lines *)

Lemma str_all_app p (a b : string) :
  str_all p (a +:+ b) = str_all p a && str_all p b.
Proof.
  induction a as [|c a IH]; [done |]. cbn [String.append str_all].
  by rewrite IH, andb_assoc.
Qed.

Lemma translate_no_CR (s : string) : no_CR (translate_newlines s) = true.
Proof.
  unfold no_CR. induction s as [|c s IH]; [done |]. cbn [translate_newlines].
  destruct (Ascii.eqb c "013") eqn:Hc.
  - destruct s as [|c' s]; [done |]. by destruct (Ascii.eqb c' "010").
  - cbn [str_all]. by rewrite Hc, IH.
Qed.

Lemma translate_id (s : string) :
  no_CR s = true → translate_newlines s = s.
Proof.
  unfold no_CR. induction s as [|c s IH]; [done |].
  cbn [str_all translate_newlines]. intros [Hc Hs]%andb_prop.
  apply negb_true_iff in Hc. by rewrite Hc, IH.
Qed.

Lemma text_lines_ok (t : string) :
  no_CR t = true → lines_ok (text_lines t) = true.
Proof.
  unfold no_CR. induction t as [|c t IH]; [done |].
  cbn [str_all text_lines]. intros [Hc Ht]%andb_prop. specialize (IH Ht).
  destruct (Ascii.eqb c "010") eqn:Hlf.
  - cbn [lines_ok full_line]. by rewrite Hlf, IH.
  - destruct (text_lines t) as [|line lines]; cbn [lines_ok] in *.
    + unfold open_line. cbn. by rewrite Hlf, Hc.
    + apply andb_prop in IH as [Hline ->]. rewrite andb_true_r.
      apply orb_prop in Hline as [Hfull | [Hopen ->]%andb_prop].
      * cbn [full_line]. by rewrite Hlf, Hc, Hfull.
      * rewrite andb_true_r. apply orb_true_iff. right.
        unfold open_line in *. apply andb_prop in Hopen as [_ Hall].
        cbn. by rewrite Hlf, Hc, Hall.
Qed.

Lemma lines_ok_sublist (l l' : list string) :
  l' `sublist_of` l → lines_ok l = true → lines_ok l' = true.
Proof.
  induction 1 as [|x l1 l2 Hsub IH|x l1 l2 Hsub IH]; [done | |];
    cbn [lines_ok]; intros [Hx Hl]%andb_prop; [| by auto].
  rewrite (IH Hl), andb_true_r.
  apply orb_prop in Hx as [-> | [-> Hnil%bool_decide_eq_true]%andb_prop];
    [done |].
  subst l2. apply sublist_nil_r in Hsub as ->. by rewrite orb_true_r.
Qed.

Lemma full_line_no_CR (x : string) : full_line x = true → no_CR x = true.
Proof.
  unfold no_CR. induction x as [|c x IH]; [done |]. cbn [full_line str_all].
  destruct (Ascii.eqb_spec c "010") as [-> | _].
  - by intros ->%String.eqb_eq.
  - intros [-> Hx]%andb_prop. auto.
Qed.

Lemma open_line_no_CR (x : string) : open_line x = true → no_CR x = true.
Proof.
  unfold open_line, no_CR. intros [_ H]%andb_prop.
  induction x as [|c x IH]; [done |]. cbn [str_all] in *.
  apply andb_prop in H as [[_ ->]%andb_prop H]. auto.
Qed.

Lemma writelines_no_CR (l : list string) :
  lines_ok l = true → no_CR (writelines l) = true.
Proof.
  induction l as [|x l IH]; [done |]. cbn [lines_ok writelines foldr].
  intros [Hx Hl]%andb_prop. unfold no_CR. rewrite str_all_app.
  fold (no_CR x). fold (no_CR (foldr String.append "" l)).
  fold (writelines l). rewrite (IH Hl), andb_true_r.
  apply orb_prop in Hx as [Hx | [Hx _]%andb_prop];
    [by apply full_line_no_CR | by apply open_line_no_CR].
Qed.

Lemma text_lines_full (x t : string) :
  full_line x = true → text_lines (x +:+ t) = x :: text_lines t.
Proof.
  induction x as [|c x IH]; [done |]. cbn [full_line String.append text_lines].
  destruct (Ascii.eqb c "010").
  - by intros ->%String.eqb_eq.
  - intros [_ Hx]%andb_prop. by rewrite (IH Hx).
Qed.

Lemma text_lines_open (x : string) :
  open_line x = true → text_lines x = [x].
Proof.
  unfold open_line. intros [Hne H]%andb_prop.
  induction x as [|c x IH]; [done |]. cbn [str_all text_lines] in *.
  apply andb_prop in H as [[Hc _]%andb_prop H].
  apply negb_true_iff in Hc. rewrite Hc.
  destruct x as [|c' x]; [done |]. by rewrite IH.
Qed.

Lemma text_lines_writelines (l : list string) :
  lines_ok l = true → text_lines (writelines l) = l.
Proof.
  induction l as [|x l IH]; [done |]. cbn [lines_ok writelines foldr].
  intros [Hx Hl]%andb_prop. fold (writelines l).
  apply orb_prop in Hx as [Hx | [Hx ->%bool_decide_eq_true]%andb_prop].
  - by rewrite text_lines_full, IH.
  - cbn. rewrite app_empty_r. by apply text_lines_open.
Qed.

Lemma readlines_ok (content : string) : lines_ok (readlines content) = true.
Proof. apply text_lines_ok, translate_no_CR. Qed.

Lemma readlines_writelines (l : list string) :
  lines_ok l = true → readlines (writelines l) = l.
Proof.
  intros Hl. unfold readlines.
  rewrite translate_id by by apply writelines_no_CR.
  by apply text_lines_writelines.
Qed.

Lemma writelines_text_lines (t : string) : writelines (text_lines t) = t.
Proof.
  induction t as [|c t IH]; [done |]. cbn [text_lines].
  destruct (Ascii.eqb c "010").
  - cbn. fold (writelines (text_lines t)). by rewrite IH.
  - destruct (text_lines t) as [|line lines]; cbn in *; by rewrite <- IH.
Qed.

Lemma readlines_clean (content : string) (shellt : ShellType)
    (dedup : bool) :
  readlines (writelines (clean_history_file (readlines content) shellt dedup))
  = clean_history_file (readlines content) shellt dedup.
Proof.
  apply readlines_writelines.
  eapply lines_ok_sublist; [apply clean_sublist | apply readlines_ok].
Qed.

(** ** [main] *)

Lemma app_ne_self (p x : string) : x ≠ "" → p +:+ x ≠ p.
Proof.
  intros Hx E. apply (f_equal String.length) in E.
  rewrite length_app_String in E. destruct x; [done |]. cbn in E. lia.
Qed.

Lemma app_inj_r (a b c : string) : a +:+ c = b +:+ c → a = b.
Proof.
  revert b. induction a as [|x a IH]; intros [|y b] E; [done | | |].
  - apply (f_equal String.length) in E. cbn in E.
    rewrite length_app_String in E. lia.
  - apply (f_equal String.length) in E. cbn in E.
    rewrite length_app_String in E. lia.
  - cbn in E. injection E as -> E. f_equal. by apply IH.
Qed.

Lemma backup_ne_history (file : string) (t : Z) :
  file +:+ "." +:+ pretty t +:+ ".bak" ≠ file.
Proof. by apply app_ne_self. Qed.

Lemma backup_inj (file : string) (t1 t2 : Z) :
  file +:+ "." +:+ pretty t1 +:+ ".bak" = file +:+ "." +:+ pretty t2 +:+ ".bak" →
  t1 = t2.
Proof.
  intros E. apply (inj (String.append file)) in E.
  apply (inj (String.append ".")) in E. apply app_inj_r in E.
  by apply (inj pretty) in E.
Qed.

Lemma main_run (w : world) (st : ShellType) (file content : string) :
  get_shell_type (environ_SHELL w) = Returned st →
  get_shell_history_file (home_dir w) (files w) st = Returned file →
  files w !! file = Some content →
  main w
  = Returned (inr (World (environ_SHELL w) (home_dir w)
      (<[file := writelines (clean_history_file (readlines content) st true)]>
         (<[file +:+ "." +:+ pretty (clock w) +:+ ".bak" := content]>
            (files w)))
      (clock w))).
Proof. intros Hst Hfile Hcontent. unfold main. by rewrite Hst, Hfile, Hcontent. Qed.

Lemma get_shell_history_file_insert (home : string)
    (files : gmap string string) (st : ShellType) (file p x : string) :
  get_shell_history_file home files st = Returned file →
  get_shell_history_file home (<[p := x]> files) st = Returned file.
Proof.
  unfold get_shell_history_file, path_exists.
  case_bool_decide as Hin; [| done]. intros [= <-].
  rewrite bool_decide_eq_true_2; [done |].
  rewrite lookup_insert_is_Some. destruct (decide (p = home +:+ "/" +:+
    match st with ZSH => ".zsh_history" | BASH => ".bash_history" end));
    [by left | by right].
Qed.



(** X16: what a run of [main] that reaches its end leaves behind.  The
    backup, named after the history file and the time, holds the old text of
    the history file; the history file holds the cleaned lines one after the
    other, and reading it again gives back exactly those lines; every other
    file is as before. *)
Theorem main_effect (w : world) (st : ShellType) (file content : string) :
  get_shell_type (environ_SHELL w) = Returned st →
  get_shell_history_file (home_dir w) (files w) st = Returned file →
  files w !! file = Some content →
  let cleaned := clean_history_file (readlines content) st true in
  let backup := file +:+ "." +:+ pretty (clock w) +:+ ".bak" in
  ∃ w', main w = Returned (inr w') ∧
        files w' !! backup = Some content ∧
        files w' !! file = Some (writelines cleaned) ∧
        readlines (writelines cleaned) = cleaned ∧
        (∀ p, p ≠ file → p ≠ backup → files w' !! p = files w !! p) ∧
        environ_SHELL w' = environ_SHELL w ∧ home_dir w' = home_dir w.
Proof.
  intros Hst Hfile Hcontent cleaned backup.
  eexists. split; [by apply (main_run w st file content) |].
  cbn [files environ_SHELL home_dir]. fold backup cleaned.
  split; [| split; [| split; [| split]]].
  - rewrite lookup_insert_ne by (symmetry; apply backup_ne_history).
    by rewrite lookup_insert_eq.
  - by rewrite lookup_insert_eq.
  - apply readlines_clean.
  - intros p Hp1 Hp2. by rewrite !lookup_insert_ne.
  - done.
Qed.

Lemma sample_world_runs : ∃ w1, main sample_world = Returned (inr w1).
Proof.
  eexists.
  by apply (main_run sample_world BASH "/home/u/.bash_history"
              ("make" +:+ String "010" ("ls -la" +:+ String "010"
                 ("cd" +:+ String "010" ("make" +:+ String "010" ""))))).
Defined.

Lemma main_effect_witness :
  let content := "make" +:+ String "010" ("ls -la" +:+ String "010"
                   ("cd" +:+ String "010" ("make" +:+ String "010" ""))) in
  let cleaned := clean_history_file (readlines content) BASH true in
  let backup := "/home/u/.bash_history" +:+ "." +:+ pretty 1700000000%Z
                +:+ ".bak" in
  ∃ w', main sample_world = Returned (inr w') ∧
        files w' !! backup = Some content ∧
        files w' !! "/home/u/.bash_history" = Some (writelines cleaned) ∧
        readlines (writelines cleaned) = cleaned ∧
        (∀ p, p ≠ "/home/u/.bash_history" → p ≠ backup →
              files w' !! p = files sample_world !! p) ∧
        environ_SHELL w' = environ_SHELL sample_world ∧
        home_dir w' = home_dir sample_world.
Proof.
  refine (main_effect sample_world BASH "/home/u/.bash_history" _ _ _ _);
    by vm_compute.
Defined.

Lemma main_rerun (w w1 : world) (st : ShellType) (file content : string)
    (t2 : Z) :
  get_shell_type (environ_SHELL w) = Returned st →
  get_shell_history_file (home_dir w) (files w) st = Returned file →
  files w !! file = Some content →
  main w = Returned (inr w1) →
  let cleaned := clean_history_file (readlines content) st true in
  files w1 = <[file := writelines cleaned]>
               (<[file +:+ "." +:+ pretty (clock w) +:+ ".bak" := content]>
                  (files w)) ∧
  main (at_time t2 w1)
  = Returned (inr (World (environ_SHELL w) (home_dir w)
      (<[file := writelines cleaned]>
         (<[file +:+ "." +:+ pretty t2 +:+ ".bak" := writelines cleaned]>
            (files w1)))
      t2)).
Proof.
  intros Hst Hfile Hcontent Hrun cleaned. subst cleaned.
  rewrite (main_run w st file content Hst Hfile Hcontent) in Hrun.
  injection Hrun as <-. cbn [files]. split; [done |].
  rewrite (main_run _ st file
             (writelines (clean_history_file (readlines content) st true)));
    cbn [at_time environ_SHELL home_dir files clock].
  - rewrite readlines_clean.
    by rewrite (clean_settled _ _ _ (settled_clean _ _ _)).
  - done.
  - by do 2 apply get_shell_history_file_insert.
  - by rewrite lookup_insert_eq.
Qed.

(** X17: a second run of [main], at whatever time, leaves the history file
    as the first run wrote it, and its backup holds that cleaned text.  When
    the two runs fall into different seconds, the backup of the first run
    still holds the text from before the first run. *)
Theorem main_twice (w w1 : world) (st : ShellType) (file content : string)
    (t2 : Z) :
  get_shell_type (environ_SHELL w) = Returned st →
  get_shell_history_file (home_dir w) (files w) st = Returned file →
  files w !! file = Some content →
  main w = Returned (inr w1) →
  let cleaned := clean_history_file (readlines content) st true in
  ∃ w2, main (at_time t2 w1) = Returned (inr w2) ∧
        files w2 !! file = files w1 !! file ∧
        files w2 !! (file +:+ "." +:+ pretty t2 +:+ ".bak")
        = Some (writelines cleaned) ∧
        (t2 ≠ clock w →
         files w2 !! (file +:+ "." +:+ pretty (clock w) +:+ ".bak")
         = Some content).
Proof.
  intros Hst Hfile Hcontent Hrun cleaned.
  destruct (main_rerun w w1 st file content t2 Hst Hfile Hcontent Hrun)
    as [Hw1 Hrerun].
  eexists. split; [exact Hrerun |]. cbn [files]. fold cleaned.
  split; [| split].
  - by rewrite Hw1, !lookup_insert_eq.
  - rewrite lookup_insert_ne by (symmetry; apply backup_ne_history).
    by rewrite lookup_insert_eq.
  - intros Ht. rewrite Hw1.
    rewrite lookup_insert_ne by (symmetry; apply backup_ne_history).
    rewrite lookup_insert_ne by (intros E%backup_inj; done).
    rewrite lookup_insert_ne by (symmetry; apply backup_ne_history).
    by rewrite lookup_insert_eq.
Qed.

Lemma main_twice_witness :
  ∃ w1 w2,
    main sample_world = Returned (inr w1) ∧
    main (at_time 1700000060 w1) = Returned (inr w2) ∧
    files w2 !! "/home/u/.bash_history" = files w1 !! "/home/u/.bash_history".
Proof.
  destruct sample_world_runs as [w1 Hrun].
  destruct (main_twice sample_world w1 BASH "/home/u/.bash_history"
              ("make" +:+ String "010" ("ls -la" +:+ String "010"
                 ("cd" +:+ String "010" ("make" +:+ String "010" ""))))
              1700000060 eq_refl eq_refl eq_refl Hrun)
    as (w2 & Hrerun & Hsame & _).
  by exists w1, w2.
Defined.

(** X18: two runs of [main] within one second share the name of their
    backup, and the second run overwrites it: afterwards the backup holds the
    cleaned text, so that the text from before the first run is lost
    wherever cleaning changed it. *)
Theorem main_twice_same_second (w w1 : world) (st : ShellType)
    (file content : string) :
  get_shell_type (environ_SHELL w) = Returned st →
  get_shell_history_file (home_dir w) (files w) st = Returned file →
  files w !! file = Some content →
  main w = Returned (inr w1) →
  let cleaned := clean_history_file (readlines content) st true in
  let backup := file +:+ "." +:+ pretty (clock w) +:+ ".bak" in
  files w1 !! backup = Some content ∧
  ∃ w2, main w1 = Returned (inr w2) ∧
        files w2 !! backup = Some (writelines cleaned) ∧
        (writelines cleaned ≠ content → files w2 !! backup ≠ Some content).
Proof.
  intros Hst Hfile Hcontent Hrun cleaned backup.
  destruct (main_rerun w w1 st file content (clock w) Hst Hfile Hcontent Hrun)
    as [Hw1 Hrerun].
  assert (at_time (clock w) w1 = w1) as Hsame.
  { rewrite (main_run w st file content Hst Hfile Hcontent) in Hrun.
    by injection Hrun as <-. }
  rewrite Hsame in Hrerun. split.
  - rewrite Hw1.
    rewrite lookup_insert_ne by (symmetry; apply backup_ne_history).
    by rewrite lookup_insert_eq.
  - eexists. split; [exact Hrerun |]. cbn [files]. fold cleaned backup.
    assert (∀ m : gmap string string,
      <[file := writelines cleaned]> (<[backup := writelines cleaned]> m)
      !! backup = Some (writelines cleaned)) as Hlookup.
    { intros m.
      rewrite lookup_insert_ne by (symmetry; apply backup_ne_history).
      by rewrite lookup_insert_eq. }
    rewrite Hlookup. split; [done | congruence].
Qed.

Lemma main_twice_same_second_witness :
  ∃ w1 w2,
    main sample_world = Returned (inr w1) ∧
    main w1 = Returned (inr w2) ∧
    files w1 !! "/home/u/.bash_history.1700000000.bak"
    = files sample_world !! "/home/u/.bash_history" ∧
    files w2 !! "/home/u/.bash_history.1700000000.bak"
    ≠ files sample_world !! "/home/u/.bash_history".
Proof.
  destruct sample_world_runs as [w1 Hrun].
  destruct (main_twice_same_second sample_world w1 BASH
              "/home/u/.bash_history"
              ("make" +:+ String "010" ("ls -la" +:+ String "010"
                 ("cd" +:+ String "010" ("make" +:+ String "010" ""))))
              eq_refl eq_refl eq_refl Hrun)
    as (Hbackup & w2 & Hrerun & _ & Hlost).
  exists w1, w2. split; [done |]. split; [done |].
  split; [exact Hbackup |]. apply Hlost. by vm_compute.
Defined.

(** X19: a run of [main] that finds nothing to drop writes the lines back
    as it read them: the history file then holds its old text with the line
    ends normalised, and when the old text has no carriage return the only
    change to the file system is the new backup. *)
Theorem main_nothing_to_clean (w w1 : world) (st : ShellType)
    (file content : string) :
  get_shell_type (environ_SHELL w) = Returned st →
  get_shell_history_file (home_dir w) (files w) st = Returned file →
  files w !! file = Some content →
  clean_history_file (readlines content) st true = readlines content →
  main w = Returned (inr w1) →
  files w1 !! file = Some (translate_newlines content) ∧
  (no_CR content = true →
   files w1
   = <[file +:+ "." +:+ pretty (clock w) +:+ ".bak" := content]> (files w)).
Proof.
  intros Hst Hfile Hcontent Hclean Hrun.
  rewrite (main_run w st file content Hst Hfile Hcontent) in Hrun.
  injection Hrun as <-. cbn [files]. rewrite Hclean. unfold readlines.
  rewrite writelines_text_lines. split; [by rewrite lookup_insert_eq |].
  intros Hcr. rewrite translate_id by done. apply insert_id.
  by rewrite lookup_insert_ne by apply backup_ne_history.
Qed.

Lemma main_nothing_to_clean_witness :
  let w := World (Some "/bin/zsh") "/root"
                 {[ "/root/.zsh_history" := ": 1:0;make" ]} 5 in
  ∃ w1, main w = Returned (inr w1) ∧
        files w1 !! "/root/.zsh_history" = Some ": 1:0;make".
Proof.
  intros w. eexists. split.
  - by apply (main_run w ZSH "/root/.zsh_history" ": 1:0;make").
  - refine (proj1 (main_nothing_to_clean w _ ZSH "/root/.zsh_history"
                     ": 1:0;make" _ _ _ _ _)); by vm_compute.
Defined.

End CompressHistory.
